(** * The image upload pipeline of [file-uploader.tsx]

    A shallow embedding of [FileUploaderButton] from
    [src/components/utility-components/file-uploader.tsx]: the validation of
    a batch of files, the metadata stripper, the two concurrent stages
    (strip, upload) with their progress updates, the extraction of the
    URLs from the servers' responses, and the handlers that hand the URLs
    to the parent's callback.

    Conventions of the model.
    - JavaScript values that the code treats dynamically (the upload
      responses, typed [any]) are elements of [value].
    - Code that may throw lives in [res]; code that also performs React
      state updates and calls collaborators lives in [M], a writer of
      [effect]s over [res].
    - What the outside world decides (whether an image decodes, what a
      server answers, in which order concurrent operations settle) is read
      from a record [world]. *)

From Stdlib Require Import List String Ascii ZArith Bool Lia Permutation Arith.
From Stdlib Require Import DecimalString.
From Stdlib Require SpecFloat.
Import ListNotations.

Set Warnings "-register-all".

Local Open Scope string_scope.
Local Open Scope list_scope.

(** ** JavaScript values and exceptions *)

Module JS.

(** Runtime values.  Numbers are kept as integers: the pipeline only ever
    stores, compares with [null] and passes on the numbers it finds in a
    response.  Objects are association lists from property names. *)
Inductive value : Type :=
| VUndefined
| VNull
| VBool (b : bool)
| VNum (n : Z)
| VStr (s : string)
| VArr (elems : list value)
| VObj (fields : list (string * value)).

(** What [throw] and a rejected promise carry: an [Error] instance with its
    [message], or any other value ([e instanceof Error] is false). *)
Inductive thrown : Type :=
| ErrorObj (message : string)
| NonError (v : value).

Inductive res (A : Type) : Type :=
| Ok (a : A)
| Throw (e : thrown).
Arguments Ok {A} a.
Arguments Throw {A} e.

Definition bind {A B} (c : res A) (k : A -> res B) : res B :=
  match c with
  | Ok a => k a
  | Throw e => Throw e
  end.

Declare Scope res_scope.
Delimit Scope res_scope with res.
Notation "x <- c ;; k" := (bind c (fun x => k))
  (at level 61, c at next level, right associativity) : res_scope.

(** [Boolean(v)]. *)
Definition truthy (v : value) : bool :=
  match v with
  | VUndefined | VNull => false
  | VBool b => b
  | VNum n => negb (n =? 0)%Z
  | VStr s => negb (s =? "")
  | VArr _ | VObj _ => true
  end.

(** [Array.isArray(v)]. *)
Definition isArray (v : value) : bool :=
  match v with
  | VArr _ => true
  | _ => false
  end.

(** [v === s] for a string literal [s]. *)
Definition strict_eq_string (v : value) (s : string) : bool :=
  match v with
  | VStr t => (t =? s)
  | _ => false
  end.

(** [v !== null]. *)
Definition not_null (v : value) : bool :=
  match v with
  | VNull => false
  | _ => true
  end.

Definition type_error : thrown := ErrorObj "TypeError".

Definition get_field (fields : list (string * value)) (key : string) : value :=
  match find (fun kv => fst kv =? key) fields with
  | Some kv => snd kv
  | None => VUndefined
  end.

(** The property name of an array index: its decimal numeral. *)
Definition index_key (i : nat) : string :=
  NilZero.string_of_uint (Nat.to_uint i).

(** [v[i]].  Reading a property of [undefined] or [null] throws a
    [TypeError]. *)
Definition js_index (v : value) (i : nat) : res value :=
  match v with
  | VUndefined | VNull => Throw type_error
  | VArr elems => Ok (nth i elems VUndefined)
  | VStr s =>
      Ok (match String.get i s with
          | Some c => VStr (String c EmptyString)
          | None => VUndefined
          end)
  | VObj fields => Ok (get_field fields (index_key i))
  | VBool _ | VNum _ => Ok VUndefined
  end.

(** [v.length]. *)
Definition js_length (v : value) : res value :=
  match v with
  | VUndefined | VNull => Throw type_error
  | VArr elems => Ok (VNum (Z.of_nat (List.length elems)))
  | VStr s => Ok (VNum (Z.of_nat (String.length s)))
  | VObj fields => Ok (get_field fields "length")
  | VBool _ | VNum _ => Ok VUndefined
  end.

(** [v > 1] for [v] a number or [undefined] ([NaN > 1] is false).  The
    source applies it to the [length] of an array only; the coercions of
    strings, arrays and objects to numbers are not modelled and read as
    false. *)
Definition js_gt1 (v : value) : bool :=
  match v with
  | VNum n => (1 <? n)%Z
  | _ => false
  end.

(** [Array.prototype.find] with a callback that may throw: the first
    element on which the callback is true, else [undefined]. *)
Fixpoint find_first (p : value -> res bool) (elems : list value) : res value :=
  match elems with
  | [] => Ok VUndefined
  | x :: rest =>
      match p x with
      | Throw e => Throw e
      | Ok true => Ok x
      | Ok false => find_first p rest
      end
  end.

(** [v.find(p)]: only arrays have the method. *)
Definition js_find (p : value -> res bool) (v : value) : res value :=
  match v with
  | VArr elems => find_first p elems
  | _ => Throw type_error
  end.

(** [xs.map(f)] with a callback that may throw. *)
Fixpoint map_res {A B} (f : A -> res B) (xs : list A) : res (list B) :=
  match xs with
  | [] => Ok []
  | x :: rest =>
      match f x with
      | Throw e => Throw e
      | Ok y =>
          match map_res f rest with
          | Throw e => Throw e
          | Ok ys => Ok (y :: ys)
          end
      end
  end.

End JS.

Import JS.
Local Open Scope res_scope.

(** ** The response resolver (source lines 161-172) *)

Module Resolver.

(** The callback of [response.find]:
    [(tag) => Array.isArray(tag) && tag[0] === "url"]. *)
Definition is_url_tag (tag : value) : res bool :=
  if isArray tag then
    first <- js_index tag 0 ;;
    Ok (strict_eq_string first "url")
  else Ok false.

(** The callback of [.map]: find the tag, then test its length. *)
Definition resolve_response (response : value) : res value :=
  urlTag <- js_find is_url_tag response ;;
  if truthy urlTag then
    len <- js_length urlTag ;;
    if js_gt1 len then js_index urlTag 1 else Ok VNull
  else Ok VNull.

(** [responses.filter(r => r && Array.isArray(r)).map(...).filter(url => url !== null)]. *)
Definition resolve_urls (responses : list value) : res (list value) :=
  let arrays := filter (fun r => truthy r && isArray r) responses in
  urls <- map_res resolve_response arrays ;;
  Ok (filter not_null urls).

(** The resolver as the specification words it, for one array-shaped
    response: the first tag that has both a first element equal to ["url"]
    and at least two elements. *)
Definition worded_tag_ok (tag : value) : bool :=
  match tag with
  | VArr (VStr s :: _ :: _) => (s =? "url")
  | _ => false
  end.

Definition worded_resolver (response : value) : option value :=
  match response with
  | VArr tags =>
      match find worded_tag_ok tags with
      | Some (VArr (_ :: second :: _)) => Some second
      | _ => None
      end
  | _ => None
  end.

(** The resolver agrees with the wording on one response. *)
Definition resolves_as_worded (response : value) : Prop :=
  resolve_urls [response] =
  Ok (match worded_resolver response with
      | Some url => [url]
      | None => []
      end).

(** What the code looks for: a tag that is an array whose first element is
    the string ["url"], whatever its length. *)
Definition url_headed (tag : value) : bool :=
  match tag with
  | VArr (VStr s :: _) => (s =? "url")
  | _ => false
  end.

End Resolver.

(** ** Files (the part of the File API the component uses) *)

Module Files.

Record File : Type := mkFile {
  name : string;
  type : string;
  size : Z;
  lastModified : Z;
  bytes : list Byte.byte
}.

Definition is_upper (c : ascii) : bool :=
  ((65 <=? nat_of_ascii c) && (nat_of_ascii c <=? 90))%nat.

Definition lower (c : ascii) : ascii :=
  if is_upper c then ascii_of_nat (nat_of_ascii c + 32) else c.

Definition printable (c : ascii) : bool :=
  ((32 <=? nat_of_ascii c) && (nat_of_ascii c <=? 126))%nat.

Fixpoint all_chars (p : ascii -> bool) (s : string) : bool :=
  match s with
  | EmptyString => true
  | String c rest => p c && all_chars p rest
  end.

Fixpoint map_chars (f : ascii -> ascii) (s : string) : string :=
  match s with
  | EmptyString => EmptyString
  | String c rest => String (f c) (map_chars f rest)
  end.

(** How the [File] constructor stores the [type] option: a type with a
    character outside U+0020..U+007E becomes the empty string, any other
    is converted to ASCII lower case. *)
Definition stored_type (t : string) : string :=
  if all_chars printable t then map_chars lower t else "".

(** [new File([blob], name, { type, lastModified })]. *)
Definition new_File (blob : list Byte.byte) (n : string) (t : string)
    (modified : Z) : File :=
  {| name := n;
     type := stored_type t;
     size := Z.of_nat (List.length blob);
     lastModified := modified;
     bytes := blob |}.

End Files.

Import Files.

(** ** Validation (source lines 12-14 and 103-121) *)

Module Validator.

Definition MAX_FILE_SIZE : Z := 5 * 1024 * 1024.
Definition ALLOWED_TYPES : list string := ["image/jpeg"; "image/png"; "image/webp"].

(** [xs.includes(s)] on an array of strings. *)
Definition includes (xs : list string) (s : string) : bool :=
  existsb (fun x => x =? s) xs.

Definition type_message : string := "Only JPEG, PNG, or WebP images are supported!".

(** The template literal of line 119, with [MAX_FILE_SIZE / (1024 * 1024)]
    printed as [5]. *)
Definition size_message : string := "Each image must be smaller than 5 MB".

(** The two guards at the head of [uploadImages], in the source's order. *)
Definition validate (imageFiles : list File) : res unit :=
  if existsb
       (fun imgFile =>
          negb (String.prefix "image/" (type imgFile))
          || negb (includes ALLOWED_TYPES (type imgFile)))
       imageFiles
  then Throw (ErrorObj type_message)
  else if existsb (fun imgFile => (MAX_FILE_SIZE <? size imgFile)%Z) imageFiles
  then Throw (ErrorObj size_message)
  else Ok tt.

(** A file the policy turns away. *)
Definition offending (f : File) : Prop :=
  ~ In (type f) ALLOWED_TYPES \/ (MAX_FILE_SIZE < size f)%Z.

End Validator.

Import Validator.

(** ** The metadata stripper (source lines 57-96) *)

Module Sanitizer.

(** What the browser does with one image: whether it loads, whether the
    canvas gives a 2d context, what [toBlob] hands to its callback, and
    what [Date.now()] reads. *)
Record canvas : Type := mkCanvas {
  loads : bool;
  has_context : bool;
  blob : option (list Byte.byte);
  date_now : Z
}.

Definition stripImageMetadata (c : canvas) (imageFile : File) : res File :=
  if loads c then
    if has_context c then
      match blob c with
      | None => Throw (ErrorObj "Failed to create blob")
      | Some b => Ok (new_File b (name imageFile) (type imageFile) (date_now c))
      end
    else Throw (ErrorObj "Failed to get canvas context")
  else Throw (ErrorObj "Failed to load image").

End Sanitizer.

Import Sanitizer.

(** ** The component: state, effects and the upload pipeline *)

Module Preview.

(** An entry of the [previews] state: [{ src, name, size }]. *)
Record preview : Type := mk {
  src : string;
  name : string;
  size : Z
}.

End Preview.

Module Pipeline.

(** What the component does to the outside: the React state setters, the
    calls of its collaborators and of the parent's callback. *)
Inductive effect : Type :=
| SetLoading (b : bool)
| SetProgress (p : option Z)
| SetShowFailureModal (b : bool)
| SetFailureText (s : string)
| SetPreviews (ps : list Preview.preview)
| RemovePreviewAt (index : nat)
| GetBase64 (f : File)
| StripImageMetadata (f : File)
| BlossomUploadImages (f : File) (servers : list string)
| SetTimeout (ms : Z)
| ImgCallbackOnUpload (imgUrl : value)
| ResetFileInput
| PreventDefault
| StopPropagation
| SetIsDragging (b : bool).

(** A computation of the component: the effects it has performed, in
    order, by the time its promise settles; the effects it has left behind
    for later (a timer's callback, the continuations of operations that
    were still in flight when a [Promise.all] rejected); and how it
    settled. *)
Record M (A : Type) : Type := mkM {
  performed : list effect;
  deferred : list effect;
  outcome : res A
}.
Arguments mkM {A} performed deferred outcome.
Arguments performed {A} m.
Arguments deferred {A} m.
Arguments outcome {A} m.

Definition ret {A} (a : A) : M A := mkM [] [] (Ok a).

Definition bindM {A B} (m : M A) (k : A -> M B) : M B :=
  match outcome m with
  | Ok a =>
      mkM (performed m ++ performed (k a))
          (deferred m ++ deferred (k a))
          (outcome (k a))
  | Throw e => mkM (performed m) (deferred m) (Throw e)
  end.

Definition tell (es : list effect) : M unit := mkM es [] (Ok tt).
Definition defer (es : list effect) : M unit := mkM [] es (Ok tt).
Definition lift {A} (r : res A) : M A := mkM [] [] r.

(** [try { body } catch (e) { handler(e) }]. *)
Definition try_catch {A} (body : M A) (handler : thrown -> M A) : M A :=
  match outcome body with
  | Ok a => body
  | Throw e =>
      mkM (performed body ++ performed (handler e))
          (deferred body ++ deferred (handler e))
          (outcome (handler e))
  end.

Declare Scope M_scope.
Delimit Scope M_scope with M.
Notation "x <- c ;; k" := (bindM c (fun x => k))
  (at level 61, c at next level, right associativity) : M_scope.
Notation "c ;; k" := (bindM c (fun _ => k))
  (at level 61, right associativity) : M_scope.

(** [xs.map((x, idx) => f(idx, x))]. *)
Fixpoint mapi_from {A B} (start : nat) (f : nat -> A -> B) (xs : list A) : list B :=
  match xs with
  | [] => []
  | x :: rest => f start x :: mapi_from (S start) f rest
  end.

Definition mapi {A B} (f : nat -> A -> B) (xs : list A) : list B :=
  mapi_from 0 f xs.

(** *** Completion orders

    The operations started by one [map] settle in an order the outside
    world chooses.  A schedule is any list of indices; it is read as a
    completion order of [n] operations by dropping indices that are out of
    range or repeated and letting the operations it does not mention
    settle last, in submission order.  A permutation of [0 .. n-1] is read
    as itself ([completion_order_permutation]). *)
Fixpoint dedup (seen : list nat) (l : list nat) : list nat :=
  match l with
  | [] => []
  | i :: rest =>
      if existsb (Nat.eqb i) seen then dedup seen rest
      else i :: dedup (i :: seen) rest
  end.

Definition completion_order (n : nat) (schedule : list nat) : list nat :=
  dedup [] (filter (fun i => (i <? n)%nat) schedule ++ seq 0 n).

(** *** [await Promise.all(items.map(async (item, idx) => { ... }))]

    [outcomes] is how the awaited operation of each item settles and
    [on_done idx] what the rest of the callback of item [idx] does once its
    operation has resolved.  The callbacks resume in completion order.  The
    first one whose operation rejects rejects the whole [Promise.all]; the
    items after it in the order still resume, but later and unobserved by
    the awaiting code. *)
Fixpoint settle {A} (outcomes : list (res A)) (on_done : nat -> list effect)
    (order : list nat) : list effect * option (thrown * list nat) :=
  match order with
  | [] => ([], None)
  | i :: rest =>
      match nth_error outcomes i with
      | Some (Throw e) => ([], Some (e, rest))
      | Some (Ok _) =>
          let (effs, rejected) := settle outcomes on_done rest in
          (on_done i ++ effs, rejected)
      | None => settle outcomes on_done rest
      end
  end.

Definition late {A} (outcomes : list (res A)) (on_done : nat -> list effect)
    (rest : list nat) : list effect :=
  flat_map
    (fun i =>
       match nth_error outcomes i with
       | Some (Ok _) => on_done i
       | _ => []
       end)
    rest.

Definition promise_all {A} (outcomes : list (res A))
    (on_done : nat -> list effect) (schedule : list nat) : M (list A) :=
  match settle outcomes on_done
          (completion_order (List.length outcomes) schedule) with
  | (effs, Some (e, rest)) => mkM effs (late outcomes on_done rest) (Throw e)
  | (effs, None) => mkM effs [] (map_res (fun o => o) outcomes)
  end.

(** *** Progress arithmetic

    [Math.round(num / den)] for integers [num >= 0] and [den > 0]:
    [floor(num / den + 1/2)].  The source computes the quotient in double
    precision; the model computes it exactly. *)
Definition round_div (num den : Z) : Z := ((2 * num + den) / (2 * den))%Z.

(** [Math.round(((idx + 1) / total) * 30)] *)
Definition strip_progress (total idx : nat) : Z :=
  round_div ((Z.of_nat idx + 1) * 30) (Z.of_nat total).

(** [30 + Math.round(((idx + 1) / total) * 70)] *)
Definition upload_progress (total idx : nat) : Z :=
  (30 + round_div ((Z.of_nat idx + 1) * 70) (Z.of_nat total))%Z.

(** *** The outside world of one run *)
Record world : Type := mkWorld {
  (** [FileReader.readAsDataURL]: the data URL, or a read error *)
  read_file : nat -> File -> option string;
  preview_order : list nat;
  canvas_of : nat -> File -> canvas;
  strip_order : list nat;
  (** [blossomUploadImages(file, signer, servers)]; the signer is passed
      through untouched and left out *)
  upload_response : nat -> File -> list string -> res value;
  upload_order : list nat;
  (** the parent's [imgCallbackOnUpload(imgUrl)], which may throw *)
  imgCallbackOnUpload : value -> res unit
}.

(** What [reader.onerror = reject] rejects with: the error event, which is
    not an [Error]. *)
Definition progress_event : value := VObj [("type", VStr "error")].

(** [getBase64(file)] followed by the rest of the preview callback. *)
Definition make_preview (w : world) (idx : nat) (file : File) : res Preview.preview :=
  match read_file w idx file with
  | Some base64 => Ok (Preview.mk base64 (name file) (size file))
  | None => Throw (NonError progress_event)
  end.

Definition DEFAULT_SERVER : string := "https://cdn.nostrcheck.me".

(** [blossomServers && blossomServers.length > 0 ? blossomServers : [...]] *)
Definition endpoints (blossomServers : option (list string)) : list string :=
  match blossomServers with
  | Some servers =>
      if (0 <? List.length servers)%nat then servers else [DEFAULT_SERVER]
  | None => [DEFAULT_SERVER]
  end.

Definition no_url_message : string :=
  "Image upload failed to yield a URL! Change your Blossom media server in settings or try again.".

Definition fallback_message : string :=
  "Failed to upload image! Change your Blossom media server in settings.".

(** [e instanceof Error ? e.message : "Failed to upload image! ..."] *)
Definition failure_message (e : thrown) : string :=
  match e with
  | ErrorObj message => message
  | NonError _ => fallback_message
  end.

Local Open Scope M_scope.

(** How the awaited operation of each item of a stage settles. *)
Definition preview_outcomes (w : world) (imageFiles : list File)
    : list (res Preview.preview) :=
  mapi (make_preview w) imageFiles.

Definition strip_outcomes (w : world) (imageFiles : list File) : list (res File) :=
  mapi (fun idx imageFile => stripImageMetadata (canvas_of w idx imageFile) imageFile)
    imageFiles.

Definition upload_outcomes (w : world) (blossomServers : option (list string))
    (strippedImageFiles : list File) : list (res value) :=
  mapi (fun idx imageFile => upload_response w idx imageFile (endpoints blossomServers))
    strippedImageFiles.

(** What the callback of item [idx] does after its [await]:
    [setProgress(Math.round(((idx + 1) / imageFiles.length) * 30))] in the
    first stage, [setProgress(30 + Math.round(... * 70))] in the second. *)
Definition strip_done (total idx : nat) : list effect :=
  [SetProgress (Some (strip_progress total idx))].

Definition upload_done (total idx : nat) : list effect :=
  [SetProgress (Some (upload_progress total idx))].

(** Lines 101-159 of [uploadImages]: validation, previews, the two stages. *)
Definition stages (w : world) (isLoggedIn : bool)
    (blossomServers : option (list string)) (files : list File)
    : M (list value) :=
  let imageFiles := files in
  lift (validate imageFiles) ;;
  tell [SetProgress (Some 0%Z)] ;;
  tell (map GetBase64 imageFiles) ;;
  previewsList <-
    promise_all (preview_outcomes w imageFiles) (fun _ => []) (preview_order w) ;;
  tell [SetPreviews previewsList] ;;
  tell (map StripImageMetadata imageFiles) ;;
  strippedImageFiles <-
    promise_all (strip_outcomes w imageFiles)
      (strip_done (List.length imageFiles)) (strip_order w) ;;
  if isLoggedIn then
    tell (map (fun imageFile => BlossomUploadImages imageFile (endpoints blossomServers))
            strippedImageFiles) ;;
    promise_all (upload_outcomes w blossomServers strippedImageFiles)
      (upload_done (List.length strippedImageFiles)) (upload_order w)
  else ret [].

(** Lines 161-186: resolve the URLs, arm the timer that clears the
    progress, report. *)
Definition finalize (responses : list value) : M (list value) :=
  imageUrls <- lift (Resolver.resolve_urls responses) ;;
  tell [SetTimeout 500%Z] ;;
  defer [SetProgress None] ;;
  if (0 <? List.length imageUrls)%nat then ret imageUrls
  else
    tell [SetFailureText no_url_message; SetShowFailureModal true] ;;
    ret [].

(** Lines 187-196: the [catch] block. *)
Definition on_failure (e : thrown) : M (list value) :=
  tell [SetProgress None; SetFailureText (failure_message e);
        SetShowFailureModal true] ;;
  ret [].

(** The body of the [try] block. *)
Definition try_block (w : world) (isLoggedIn : bool)
    (blossomServers : option (list string)) (files : list File)
    : M (list value) :=
  responses <- stages w isLoggedIn blossomServers files ;;
  finalize responses.

Definition uploadImages (w : world) (isLoggedIn : bool)
    (blossomServers : option (list string)) (files : list File)
    : M (list value) :=
  try_catch (try_block w isLoggedIn blossomServers files) on_failure.

(** One call of the parent's callback: the call is made, and it returns
    or throws as the parent decides. *)
Definition call_callback (w : world) (imgUrl : value) : M unit :=
  mkM [ImgCallbackOnUpload imgUrl] [] (imgCallbackOnUpload w imgUrl).

(** [xs.forEach(f)]: the calls in order, up to the first that throws. *)
Fixpoint for_each {A} (f : A -> M unit) (xs : list A) : M unit :=
  match xs with
  | [] => ret tt
  | x :: rest => f x ;; for_each f rest
  end.

(** [uploadedImages.filter(imgUrl => imgUrl !== null).forEach(imgCallbackOnUpload)] *)
Definition hand_over (w : world) (uploadedImages : list value) : M unit :=
  for_each (call_callback w) (filter not_null uploadedImages).

(** [handleChange]; [files] is [e.currentTarget.files], which may be null. *)
Definition handleChange (w : world) (isLoggedIn : bool)
    (blossomServers : option (list string)) (files : option (list File))
    : M unit :=
  tell [SetLoading true] ;;
  match files with
  | Some fs =>
      uploadedImages <- uploadImages w isLoggedIn blossomServers fs ;;
      hand_over w uploadedImages
  | None => ret tt
  end ;;
  tell [SetLoading false] ;;
  tell [ResetFileInput].

(** [handleDragEnter] and [handleDragOver]. *)
Definition handleDragEnter : M unit :=
  tell [PreventDefault; StopPropagation; SetIsDragging true].

Definition handleDragOver : M unit :=
  tell [PreventDefault; StopPropagation; SetIsDragging true].

Definition handleDragLeave : M unit :=
  tell [PreventDefault; StopPropagation; SetIsDragging false].

(** [handleDrop]; [files] is [e.dataTransfer.files]. *)
Definition handleDrop (w : world) (isLoggedIn : bool)
    (blossomServers : option (list string)) (files : list File) : M unit :=
  tell [PreventDefault; StopPropagation; SetIsDragging false] ;;
  if (0 <? List.length files)%nat then
    tell [SetLoading true] ;;
    uploadedImages <- uploadImages w isLoggedIn blossomServers files ;;
    hand_over w uploadedImages ;;
    tell [SetLoading false]
  else ret tt.

(** [removePreview] and [clearAll]: the state update, then the call of
    the parent's callback with the empty string. *)
Definition removePreview (w : world) (index : nat) : M unit :=
  tell [RemovePreviewAt index] ;;
  call_callback w (VStr "").

Definition clearAll (w : world) : M unit :=
  tell [SetPreviews []] ;;
  call_callback w (VStr "").

(** *** The component's state, as the effects leave it *)
Record ui : Type := mkUi {
  loading : bool;
  progress : option Z;
  showFailureModal : bool;
  failureText : string;
  previews : list Preview.preview;
  isDragging : bool
}.

Definition initial_ui : ui := mkUi false None false "" [] false.

Fixpoint remove_at {A} (index : nat) (xs : list A) : list A :=
  match xs, index with
  | [], _ => []
  | _ :: rest, 0 => rest
  | x :: rest, S k => x :: remove_at k rest
  end.

Definition step (s : ui) (e : effect) : ui :=
  match e with
  | SetLoading b =>
      mkUi b (progress s) (showFailureModal s) (failureText s) (previews s)
        (isDragging s)
  | SetProgress p =>
      mkUi (loading s) p (showFailureModal s) (failureText s) (previews s)
        (isDragging s)
  | SetShowFailureModal b =>
      mkUi (loading s) (progress s) b (failureText s) (previews s) (isDragging s)
  | SetFailureText t =>
      mkUi (loading s) (progress s) (showFailureModal s) t (previews s)
        (isDragging s)
  | SetPreviews ps =>
      mkUi (loading s) (progress s) (showFailureModal s) (failureText s) ps
        (isDragging s)
  | RemovePreviewAt i =>
      mkUi (loading s) (progress s) (showFailureModal s) (failureText s)
        (remove_at i (previews s)) (isDragging s)
  | SetIsDragging b =>
      mkUi (loading s) (progress s) (showFailureModal s) (failureText s)
        (previews s) b
  | _ => s
  end.

Definition run (s : ui) (es : list effect) : ui := fold_left step es s.

(** *** Reading a trace *)

(** Every effect of a computation, performed or left for later, satisfies
    [P]. *)
Definition effects_satisfy (P : effect -> Prop) {A} (m : M A) : Prop :=
  Forall P (performed m) /\ Forall P (deferred m).

Definition is_failure_text (e : effect) : Prop :=
  match e with
  | SetFailureText _ => True
  | _ => False
  end.

Definition is_upload_call (e : effect) : Prop :=
  match e with
  | BlossomUploadImages _ _ => True
  | _ => False
  end.

Definition progress_updates (es : list effect) : list (option Z) :=
  flat_map (fun e => match e with SetProgress p => [p] | _ => [] end) es.

Definition failure_texts (es : list effect) : list string :=
  flat_map (fun e => match e with SetFailureText t => [t] | _ => [] end) es.

Definition upload_calls (es : list effect) : list (File * list string) :=
  flat_map (fun e => match e with BlossomUploadImages f s => [(f, s)] | _ => [] end) es.

Definition strip_calls (es : list effect) : list File :=
  flat_map (fun e => match e with StripImageMetadata f => [f] | _ => [] end) es.

Definition callback_arguments (es : list effect) : list value :=
  flat_map (fun e => match e with ImgCallbackOnUpload u => [u] | _ => [] end) es.

(** The two ways a run of [uploadImages] ends: through the [catch] block,
    or through the report at the end of the [try] block. *)
Inductive ending (w : world) (isLoggedIn : bool)
    (blossomServers : option (list string)) (files : list File) : Prop :=
| Caught (e : thrown) :
    outcome (stages w isLoggedIn blossomServers files) = Throw e ->
    uploadImages w isLoggedIn blossomServers files =
      mkM (performed (stages w isLoggedIn blossomServers files)
           ++ [SetProgress None; SetFailureText (failure_message e);
               SetShowFailureModal true])
          (deferred (stages w isLoggedIn blossomServers files) ++ [])
          (Ok []) ->
    ending w isLoggedIn blossomServers files
| Reported (responses urls : list value) :
    outcome (stages w isLoggedIn blossomServers files) = Ok responses ->
    Resolver.resolve_urls responses = Ok urls ->
    uploadImages w isLoggedIn blossomServers files =
      mkM (performed (stages w isLoggedIn blossomServers files)
           ++ SetTimeout 500
              :: (if (0 <? List.length urls)%nat then []
                  else [SetFailureText no_url_message; SetShowFailureModal true]))
          (deferred (stages w isLoggedIn blossomServers files) ++ [SetProgress None])
          (Ok (if (0 <? List.length urls)%nat then urls else [])) ->
    ending w isLoggedIn blossomServers files.

(** What a run that stopped at validation looks like: the [catch] block
    alone has run. *)
Definition aborted (msg : string) : M (list value) :=
  mkM [SetProgress None; SetFailureText msg; SetShowFailureModal true] [] (Ok []).

(** Isolation of upload failures as the specification words it: the run
    collects the URL of every upload that resolved to one, whatever became
    of the other uploads of the batch. *)
Definition collects_survivors (w : world) (blossomServers : option (list string))
    (files : list File) : Prop :=
  forall stripped i f response url,
    strip_outcomes w files = map Ok stripped ->
    nth_error stripped i = Some f ->
    upload_response w i f (endpoints blossomServers) = Ok response ->
    Resolver.resolve_urls [response] = Ok [url] ->
    exists urls,
      outcome (uploadImages w true blossomServers files) = Ok urls /\ In url urls.

(** A list of progress values that never goes down. *)
Fixpoint nondecreasing (ps : list Z) : Prop :=
  match ps with
  | p :: (q :: _) as rest => (p <= q)%Z /\ nondecreasing rest
  | _ => True
  end.

End Pipeline.

Import Pipeline.

(** ** Concrete runs used below *)

Module Examples.

Definition jpeg (n : string) : File := mkFile n "image/jpeg" 2048 0 [].

Definition photo_a : File := jpeg "a.jpg".
Definition photo_b : File := jpeg "b.jpg".

(** A browser in which every image decodes and re-encodes. *)
Definition good_canvas : canvas := mkCanvas true true (Some []) 1700000000000.

Definition url_tags (url : string) : value :=
  VArr [VArr [VStr "url"; VStr url]; VArr [VStr "size"; VStr "100"]].

(** Two files, every operation succeeds, and in both stages the second
    file finishes before the first. *)
Definition second_finishes_first : world :=
  mkWorld (fun _ _ => Some "data:image/jpeg;base64,")
    [0; 1]
    (fun _ _ => good_canvas)
    [1; 0]
    (fun idx _ _ =>
       Ok (url_tags (if (idx =? 0)%nat then "https://x/a.jpg" else "https://x/b.jpg")))
    [1; 0]
    (fun _ => Ok tt).

(** Two files; the upload of the first is rejected, the upload of the
    second answers with a url tag. *)
Definition first_upload_fails : world :=
  mkWorld (fun _ _ => Some "data:image/jpeg;base64,")
    [0; 1]
    (fun _ _ => good_canvas)
    [0; 1]
    (fun idx _ _ =>
       if (idx =? 0)%nat then Throw (ErrorObj "Failed to fetch")
       else Ok (url_tags "https://x/b.jpg"))
    [0; 1]
    (fun _ => Ok tt).

(** Two files; the first cannot be decoded, the second can. *)
Definition first_strip_fails : world :=
  mkWorld (fun _ _ => Some "data:image/jpeg;base64,")
    [0; 1]
    (fun idx _ => if (idx =? 0)%nat then mkCanvas false true None 0 else good_canvas)
    [0; 1]
    (fun _ _ _ => Ok (url_tags "https://x/b.jpg"))
    [0; 1]
    (fun _ => Ok tt).

(** What [stripImageMetadata] makes of a file in [good_canvas]. *)
Definition stripped (f : File) : File :=
  new_File [] (name f) (type f) 1700000000000.

(** One file; the server answers, but with no url tag. *)
Definition answers_without_url : world :=
  mkWorld (fun _ _ => Some "data:image/jpeg;base64,")
    [0]
    (fun _ _ => good_canvas)
    [0]
    (fun _ _ _ => Ok (VArr [VArr [VStr "size"; VStr "100"]]))
    [0]
    (fun _ => Ok tt).

(** A server that answers with a url tag holding the empty string. *)
Definition empty_url_response : value := VArr [VArr [VStr "url"; VStr ""]].

Definition answers_empty_url : world :=
  mkWorld (fun _ _ => Some "data:image/jpeg;base64,")
    [0]
    (fun _ _ => good_canvas)
    [0]
    (fun _ _ _ => Ok empty_url_response)
    [0]
    (fun _ => Ok tt).

(** The run of [second_finishes_first] under a parent whose callback
    throws when it is handed the first URL. *)
Definition parent_throws_on_first : world :=
  mkWorld (read_file second_finishes_first) (preview_order second_finishes_first)
    (canvas_of second_finishes_first) (strip_order second_finishes_first)
    (upload_response second_finishes_first) (upload_order second_finishes_first)
    (fun imgUrl =>
       match imgUrl with
       | VStr "https://x/a.jpg" => Throw (ErrorObj "parent failed")
       | _ => Ok tt
       end).

(** A response whose first url tag has no value and whose second has one. *)
Definition short_then_full : value :=
  VArr [VArr [VStr "url"]; VArr [VStr "url"; VStr "https://x/1.png"]].

End Examples.

(** ** Code beside the pipeline: size labels, object URLs, preview removal *)

Module Display.

(** The decimal numeral of a non-negative integer, as [String(n)] prints
    it below 1e21. *)
Definition decimal (n : Z) : string :=
  NilZero.string_of_uint (N.to_uint (Z.to_N n)).

(** The integer [n] of [x.toFixed(1)] for [x = num / den]: the integer
    nearest to [10 * x], the larger one on a tie.  A file size below 2^53
    divided by 1024 or by 1024 * 1024 is exact in double precision, so
    [x] is the quotient itself. *)
Definition tenths (num den : Z) : Z := ((2 * (10 * num) + den) / (2 * den))%Z.

(** The digits [toFixed(1)] prints for [n] tenths. *)
Definition fixed1 (n : Z) : string :=
  decimal (n / 10) ++ "." ++ decimal (n mod 10).

(** [formatFileSize], source lines 50-55, for an integer [bytes] with
    [0 <= bytes < 2^53]. *)
Definition formatFileSize (bytes : Z) : string :=
  if (bytes <? 1024)%Z then decimal bytes ++ " B"
  else if (bytes <? 1024 * 1024)%Z then fixed1 (tenths bytes 1024) ++ " KB"
  else fixed1 (tenths bytes (1024 * 1024)) ++ " MB".

(** A size a [File] can have. *)
Definition file_size (bytes : Z) : Prop := (0 <= bytes < 2 ^ 53)%Z.

End Display.

Module ObjectUrl.

(** What one call of [stripImageMetadata] does to the browser, besides
    settling: source lines 60-94. *)
Inductive browser_call : Type :=
| CreateObjectURL (f : File)
| DrawImage
| ToBlob (mime : string)
| RevokeObjectURL.

(** [stripImageMetadata] with the browser calls of each of its four exits:
    [img.onerror], no 2d context, no blob, success. *)
Definition stripImageMetadata_calls (c : canvas) (imageFile : File)
    : list browser_call * res File :=
  if loads c then
    if has_context c then
      match blob c with
      | None =>
          ([CreateObjectURL imageFile; DrawImage; ToBlob (type imageFile);
            RevokeObjectURL],
           Throw (ErrorObj "Failed to create blob"))
      | Some b =>
          ([CreateObjectURL imageFile; DrawImage; ToBlob (type imageFile);
            RevokeObjectURL],
           Ok (new_File b (name imageFile) (type imageFile) (date_now c)))
      end
    else
      ([CreateObjectURL imageFile; RevokeObjectURL],
       Throw (ErrorObj "Failed to get canvas context"))
  else
    ([CreateObjectURL imageFile; RevokeObjectURL],
     Throw (ErrorObj "Failed to load image")).

Definition revocations (calls : list browser_call) : nat :=
  List.length
    (filter (fun call => match call with RevokeObjectURL => true | _ => false end) calls).

Definition creations (calls : list browser_call) : nat :=
  List.length
    (filter (fun call => match call with CreateObjectURL _ => true | _ => false end) calls).

End ObjectUrl.

Module Removal.

(** [xs.filter((x, idx) => p(x, idx))]. *)
Fixpoint filteri_from {A} (start : nat) (p : A -> nat -> bool) (xs : list A)
    : list A :=
  match xs with
  | [] => []
  | x :: rest =>
      if p x start then x :: filteri_from (S start) p rest
      else filteri_from (S start) p rest
  end.

(** The state update of [removePreview], source line 255:
    [prev.filter((_, idx) => idx !== index)]. *)
Definition without_index {A} (index : nat) (prev : list A) : list A :=
  filteri_from 0 (fun _ idx => negb (idx =? index)%nat) prev.

End Removal.

Module Doubles.

(** The progress arithmetic as the source computes it, in IEEE 754
    double precision (53 bits of precision, exponents up to 1024). *)
Definition double : Type := SpecFloat.spec_float.

(** The double nearest to an integer. *)
Definition of_Z (z : Z) : double := SpecFloat.binary_normalize 53 1024 z 0 false.

Definition div (x y : double) : double := SpecFloat.SFdiv 53 1024 x y.
Definition mul (x y : double) : double := SpecFloat.SFmul 53 1024 x y.

(** [Math.round(x)]: the integer nearest to the value of [x], the larger
    one on a tie, that is [floor(x + 1/2)] computed exactly.  A finite
    double is [m * 2^e], negated when the sign is set.  ([NaN] and the
    infinities do not arise from the division of two positive integers;
    they are read as 0.) *)
Definition Math_round (x : double) : Z :=
  match x with
  | SpecFloat.S754_finite sign m e =>
      let n := if sign then Z.neg m else Z.pos m in
      if (0 <=? e)%Z then (n * 2 ^ e)%Z
      else ((2 * n + 2 ^ (- e)) / 2 ^ (1 - e))%Z
  | _ => 0%Z
  end.

(** [Math.round(((idx + 1) / total) * 30)] *)
Definition strip_progress (total idx : nat) : Z :=
  Math_round (mul (div (of_Z (Z.of_nat idx + 1)) (of_Z (Z.of_nat total))) (of_Z 30)).

(** [30 + Math.round(((idx + 1) / total) * 70)] *)
Definition upload_progress (total idx : nat) : Z :=
  (30 + Math_round
          (mul (div (of_Z (Z.of_nat idx + 1)) (of_Z (Z.of_nat total))) (of_Z 70)))%Z.

(** The exact rounding of [Pipeline] and the double-precision rounding
    give the same progress for every file of a batch of [total] files. *)
Definition agrees (total : nat) : bool :=
  forallb
    (fun idx =>
       (Pipeline.strip_progress total idx =? strip_progress total idx)%Z
       && (Pipeline.upload_progress total idx =? upload_progress total idx)%Z)
    (seq 0 total).

Definition agree_below (bound : nat) : bool := forallb agrees (seq 0 bound).

End Doubles.

Module Reading.

(** The numbers a trace sets the progress to. *)
Definition progress_values (es : list effect) : list Z :=
  flat_map (fun e => match e with SetProgress (Some p) => [p] | _ => [] end) es.

Definition is_progress (e : effect) : Prop :=
  match e with
  | SetProgress _ => True
  | _ => False
  end.


Definition previews_set (es : list effect) : list (list Preview.preview) :=
  flat_map (fun e => match e with SetPreviews ps => [ps] | _ => [] end) es.

(** The URLs a [forEach] over [urls] hands to the parent's callback: all
    of them up to and including the first on which the callback throws. *)
Fixpoint handed_over (w : world) (urls : list value) : list value :=
  match urls with
  | [] => []
  | url :: rest =>
      match imgCallbackOnUpload w url with
      | Ok _ => url :: handed_over w rest
      | Throw _ => [url]
      end
  end.

(** What the first throwing call of the callback throws, if one throws. *)
Fixpoint first_throw (w : world) (urls : list value) : option thrown :=
  match urls with
  | [] => None
  | url :: rest =>
      match imgCallbackOnUpload w url with
      | Ok _ => first_throw w rest
      | Throw e => Some e
      end
  end.

(** The texts a run can show without the upload collaborator's help. *)
Definition built_in_messages : list string :=
  [type_message; size_message; fallback_message;
   "Failed to load image"; "Failed to get canvas context";
   "Failed to create blob"; no_url_message].

End Reading.

(** * Properties *)

(** ** The response resolver *)

Section ResolverFacts.

Import Resolver.

Lemma is_url_tag_url_headed (tag : value) :
  is_url_tag tag = Ok (url_headed tag).
Proof.
  destruct tag as [ | | b | n | s | elems | fields]; try reflexivity.
  destruct elems as [ | first rest]; [reflexivity | ].
  destruct first; reflexivity.
Qed.

Lemma find_first_url_tag (tags : list value) :
  find_first is_url_tag tags =
  Ok (match find url_headed tags with Some tag => tag | None => VUndefined end).
Proof.
  induction tags as [ | tag rest IH]; [reflexivity | ].
  cbn [find_first find]. rewrite is_url_tag_url_headed.
  destruct (url_headed tag); [reflexivity | exact IH].
Qed.

Lemma one_lt_length {A} (x y : A) (l : list A) :
  (1 <? Z.of_nat (List.length (x :: y :: l)))%Z = true.
Proof. apply Z.ltb_lt. cbn [List.length]. lia. Qed.

(** What the [.map] callback returns on an array-shaped response. *)
Lemma resolve_response_array (tags : list value) :
  resolve_response (VArr tags) =
  Ok (match find url_headed tags with
      | Some (VArr (_ :: second :: _)) => second
      | _ => VNull
      end).
Proof.
  unfold resolve_response. cbn [js_find JS.bind].
  rewrite find_first_url_tag.
  destruct (find url_headed tags) as [tag | ] eqn:Hfind; [ | reflexivity].
  apply find_some in Hfind. destruct Hfind as [_ Hhead].
  destruct tag as [ | | b | n | s | elems | fields]; try discriminate Hhead.
  destruct elems as [ | first [ | second rest]]; try reflexivity.
  cbn [truthy js_length JS.bind js_gt1]. rewrite one_lt_length. reflexivity.
Qed.

Lemma resolve_response_total (response : value) :
  isArray response = true -> exists url, resolve_response response = Ok url.
Proof.
  destruct response; try discriminate. intros _.
  rewrite resolve_response_array. eexists. reflexivity.
Qed.

Lemma map_res_total {A B} (f : A -> res B) (xs : list A) :
  (forall x, In x xs -> exists y, f x = Ok y) ->
  exists ys, map_res f xs = Ok ys.
Proof.
  induction xs as [ | x rest IH]; intros Hf.
  - exists []. reflexivity.
  - destruct (Hf x (or_introl eq_refl)) as [y Hy].
    destruct IH as [ys Hys]; [intros; apply Hf; right; assumption | ].
    exists (y :: ys). cbn [map_res]. rewrite Hy, Hys. reflexivity.
Qed.

(** The resolver never throws, whatever the responses are. *)
Lemma resolve_urls_total (responses : list value) :
  exists urls, resolve_urls responses = Ok urls.
Proof.
  unfold resolve_urls.
  destruct (map_res_total resolve_response
              (filter (fun r => truthy r && isArray r) responses)) as [urls Hurls].
  - intros r Hr. apply filter_In in Hr. destruct Hr as [_ Hr].
    apply andb_true_iff in Hr. apply resolve_response_total. apply Hr.
  - rewrite Hurls. eexists. reflexivity.
Qed.

Lemma resolve_urls_not_array (response : value) :
  isArray response = false -> resolve_urls [response] = Ok [].
Proof.
  intros Hna. unfold resolve_urls. cbn [filter].
  rewrite Hna, andb_false_r. reflexivity.
Qed.

Lemma resolve_urls_array (tags : list value) :
  resolve_urls [VArr tags] =
  Ok (filter not_null
        [match find url_headed tags with
         | Some (VArr (_ :: second :: _)) => second
         | _ => VNull
         end]).
Proof.
  unfold resolve_urls. cbn [filter truthy isArray andb map_res].
  rewrite resolve_response_array. reflexivity.
Qed.

(** Responses are resolved one by one: the URLs of a list of responses are
    those of its head followed by those of its tail. *)
Lemma resolve_urls_cons (response : value) (responses : list value) :
  resolve_urls (response :: responses) =
  (here <- resolve_urls [response] ;;
   there <- resolve_urls responses ;;
   Ok (here ++ there))%res.
Proof.
  destruct (resolve_urls_total responses) as [there Hthere].
  rewrite Hthere. revert Hthere. unfold resolve_urls. cbn [filter].
  destruct (truthy response && isArray response) eqn:Hkeep.
  - apply andb_true_iff in Hkeep.
    destruct (resolve_response_total response (proj2 Hkeep)) as [url Hurl].
    cbn [map_res JS.bind]. rewrite Hurl.
    destruct (map_res resolve_response _) as [urls | e]; cbn [JS.bind];
      [ | discriminate].
    intros H. injection H as <-. cbn [filter].
    destruct (not_null url); reflexivity.
  - cbn [map_res JS.bind filter].
    destruct (map_res resolve_response _) as [urls | e]; cbn [JS.bind];
      [ | discriminate].
    intros H. injection H as <-. reflexivity.
Qed.

End ResolverFacts.

Section ResolverClaims.

Import Resolver Examples.

(** C2, as stated, fails: on a response whose first ["url"] tag has a
    single element and whose second ["url"] tag carries a URL, the wording
    picks the second tag's URL while the code stops at the first tag and
    resolves to absence. *)
Lemma resolver_stops_at_short_url_tag :
  worded_resolver short_then_full = Some (VStr "https://x/1.png")
  /\ resolve_urls [short_then_full] = Ok []
  /\ ~ resolves_as_worded short_then_full.
Proof.
  split; [reflexivity | ]. split; [reflexivity | ].
  unfold resolves_as_worded. cbv. discriminate.
Qed.

(** C2, amended: the resolver never throws; a response that is not an
    array resolves to absence; an array resolves through the first tag
    that is itself an array headed by the string ["url"]: to that tag's
    second element when the tag has one and it is not [null], to absence
    when there is no such tag, when that tag has a single element or when
    its second element is [null]. *)
Theorem resolver_first_url_tag (response : value) (responses : list value) :
  (exists urls, resolve_urls responses = Ok urls)
  /\ (isArray response = false -> resolve_urls [response] = Ok [])
  /\ (forall tags, response = VArr tags ->
        match find url_headed tags with
        | Some (VArr (_ :: second :: _)) =>
            resolve_response response = Ok second
            /\ resolve_urls [response] = Ok (if not_null second then [second] else [])
        | _ =>
            resolve_response response = Ok VNull
            /\ resolve_urls [response] = Ok []
        end).
Proof.
  split; [apply resolve_urls_total | ].
  split; [apply resolve_urls_not_array | ].
  intros tags ->.
  rewrite resolve_urls_array, resolve_response_array.
  destruct (find url_headed tags) as [tag | ]; [ | split; reflexivity].
  destruct tag as [ | | b | n | s | elems | fields]; try (split; reflexivity).
  destruct elems as [ | first [ | second rest]]; try (split; reflexivity).
Qed.

(** The examples of the specification's section 8. *)
Example resolver_examples :
  resolve_urls [url_tags "https://x/1.png"] = Ok [VStr "https://x/1.png"]
  /\ resolve_urls [VArr [VArr [VStr "size"; VStr "100"]]] = Ok []
  /\ resolve_urls [VObj [("error", VStr "nope")]] = Ok []
  /\ resolve_urls [VArr [VArr [VStr "url"]]] = Ok [].
Proof. repeat split. Qed.

End ResolverClaims.

(** ** Validation *)

Section ValidatorFacts.

Lemma includes_In (xs : list string) (s : string) :
  includes xs s = true <-> In s xs.
Proof.
  unfold includes. rewrite existsb_exists. split.
  - intros [x [Hin Heq]]. apply String.eqb_eq in Heq. subst. exact Hin.
  - intros Hin. exists s. split; [exact Hin | apply String.eqb_refl].
Qed.

Lemma allowed_has_image_prefix (t : string) :
  In t ALLOWED_TYPES -> String.prefix "image/" t = true.
Proof.
  intros [<- | [<- | [<- | []]]]; reflexivity.
Qed.

(** The type guard of line 106-108 fires exactly on the types outside the
    allow-list: the [startsWith] test adds nothing to the [includes] test. *)
Lemma type_guard_iff (t : string) :
  negb (String.prefix "image/" t) || negb (includes ALLOWED_TYPES t) = true
  <-> ~ In t ALLOWED_TYPES.
Proof.
  split.
  - intros Hguard Hin.
    rewrite (allowed_has_image_prefix t Hin) in Hguard.
    apply includes_In in Hin. rewrite Hin in Hguard. discriminate.
  - intros Hout. destruct (includes ALLOWED_TYPES t) eqn:Hinc.
    + apply includes_In in Hinc. contradiction.
    + apply orb_true_r.
Qed.

Lemma validate_throws_iff (files : list File) :
  (exists f, In f files /\ offending f)
  <-> exists msg, validate files = Throw (ErrorObj msg)
                  /\ (msg = type_message \/ msg = size_message).
Proof.
  unfold validate, offending.
  set (bad_type := fun imgFile : File =>
         negb (String.prefix "image/" (type imgFile))
         || negb (includes ALLOWED_TYPES (type imgFile))).
  set (too_big := fun imgFile : File => (MAX_FILE_SIZE <? size imgFile)%Z).
  split.
  - intros [f [Hin Hoff]].
    destruct (existsb bad_type files) eqn:Htype.
    + eexists. split; [reflexivity | left; reflexivity].
    + assert (Hsize : existsb too_big files = true).
      { apply existsb_exists. exists f. split; [exact Hin | ].
        destruct Hoff as [Hoff | Hoff]; [ | apply Z.ltb_lt; exact Hoff].
        exfalso. apply type_guard_iff in Hoff.
        assert (Hex : existsb bad_type files = true)
          by (apply existsb_exists; exists f; split; assumption).
        rewrite Hex in Htype. discriminate. }
      rewrite Hsize. eexists. split; [reflexivity | right; reflexivity].
  - intros [msg [Hthrow _]].
    destruct (existsb bad_type files) eqn:Htype.
    + apply existsb_exists in Htype. destruct Htype as [f [Hin Hguard]].
      exists f. split; [exact Hin | left]. apply type_guard_iff. exact Hguard.
    + destruct (existsb too_big files) eqn:Hsize; [ | discriminate].
      apply existsb_exists in Hsize. destruct Hsize as [f [Hin Hbig]].
      exists f. split; [exact Hin | right]. apply Z.ltb_lt. exact Hbig.
Qed.

Lemma validate_cases (files : list File) :
  validate files = Ok tt
  \/ validate files = Throw (ErrorObj type_message)
  \/ validate files = Throw (ErrorObj size_message).
Proof.
  unfold validate.
  destruct (existsb _ files); [right; left; reflexivity | ].
  destruct (existsb _ files); [right; right; reflexivity | left; reflexivity].
Qed.

End ValidatorFacts.

(** ** Completion orders and [Promise.all] *)

Section PromiseFacts.

Lemma existsb_eqb_In (i : nat) (seen : list nat) :
  existsb (Nat.eqb i) seen = true <-> In i seen.
Proof.
  rewrite existsb_exists. split.
  - intros [j [Hin Heq]]. apply Nat.eqb_eq in Heq. subst. exact Hin.
  - intros Hin. exists i. split; [exact Hin | apply Nat.eqb_refl].
Qed.

Lemma dedup_In (l seen : list nat) (i : nat) :
  In i (dedup seen l) <-> In i l /\ ~ In i seen.
Proof.
  revert seen. induction l as [ | j rest IH]; intros seen; cbn [dedup].
  - cbn. tauto.
  - destruct (existsb (Nat.eqb j) seen) eqn:Hseen.
    + apply existsb_eqb_In in Hseen. rewrite IH. cbn [In].
      split; [tauto | ]. intros [[-> | Hin] Hnot]; [contradiction | tauto].
    + assert (Hfresh : ~ In j seen).
      { intros Hin. apply existsb_eqb_In in Hin. congruence. }
      cbn [In]. rewrite IH. cbn [In]. split.
      * intros [-> | [Hin Hnot]]; [tauto | tauto].
      * intros [[-> | Hin] Hnot]; [tauto | ].
        destruct (Nat.eq_dec j i) as [-> | Hne]; [tauto | right; tauto].
Qed.

(** Every operation of the batch settles. *)
Lemma completion_order_complete (n : nat) (schedule : list nat) (i : nat) :
  i < n -> In i (completion_order n schedule).
Proof.
  intros Hlt. unfold completion_order. apply dedup_In. split; [ | intros []].
  apply in_or_app. right. apply in_seq. lia.
Qed.

Lemma completion_order_in_range (n : nat) (schedule : list nat) (i : nat) :
  In i (completion_order n schedule) -> i < n.
Proof.
  unfold completion_order. intros Hin. apply dedup_In in Hin.
  destruct Hin as [Hin _]. apply in_app_or in Hin. destruct Hin as [Hin | Hin].
  - apply filter_In in Hin. destruct Hin as [_ Hlt]. apply Nat.ltb_lt. exact Hlt.
  - apply in_seq in Hin. lia.
Qed.




Context {A : Type}.
Variable outcomes : list (res A).
Variable on_done : nat -> list effect.

Lemma settle_none (order : list nat) (effs : list effect) :
  settle outcomes on_done order = (effs, None) ->
  forall i e, In i order -> nth_error outcomes i <> Some (Throw e).
Proof.
  revert effs. induction order as [ | j rest IH]; intros effs Hsettle i e Hin.
  - destruct Hin.
  - cbn [settle] in Hsettle.
    destruct (nth_error outcomes j) as [[v | e'] | ] eqn:Hj.
    + destruct (settle outcomes on_done rest) as [effs' rejected] eqn:Hrest.
      injection Hsettle as _ Hrej. subst rejected.
      destruct Hin as [-> | Hin]; [congruence | ].
      apply (IH effs' eq_refl i e Hin).
    + discriminate.
    + destruct Hin as [-> | Hin]; [congruence | ].
      apply (IH effs Hsettle i e Hin).
Qed.

(** The rejection that wins is that of an item, and every item scheduled
    before it resolved. *)
Lemma settle_some (order : list nat) (effs : list effect) (e : thrown)
    (rest : list nat) :
  settle outcomes on_done order = (effs, Some (e, rest)) ->
  exists before i,
    order = before ++ i :: rest
    /\ nth_error outcomes i = Some (Throw e)
    /\ forall j e', In j before -> nth_error outcomes j <> Some (Throw e').
Proof.
  revert effs. induction order as [ | j tail IH]; intros effs Hsettle.
  - discriminate.
  - cbn [settle] in Hsettle.
    destruct (nth_error outcomes j) as [[v | e'] | ] eqn:Hj.
    + destruct (settle outcomes on_done tail) as [effs' rejected] eqn:Htail.
      injection Hsettle as _ Hrej. subst rejected.
      destruct (IH effs' eq_refl) as [before [i [Horder [Hi Hbefore]]]].
      exists (j :: before), i. split; [cbn; f_equal; exact Horder | ].
      split; [exact Hi | ].
      intros k e'' [<- | Hk]; [congruence | apply Hbefore; exact Hk].
    + injection Hsettle as _ He Hrest. subst e' tail.
      exists [], j. split; [reflexivity | ]. split; [exact Hj | intros ? ? []].
    + destruct (IH effs Hsettle) as [before [i [Horder [Hi Hbefore]]]].
      exists (j :: before), i. split; [cbn; f_equal; exact Horder | ].
      split; [exact Hi | ].
      intros k e'' [<- | Hk]; [congruence | apply Hbefore; exact Hk].
Qed.

Lemma settle_effects (P : effect -> Prop) (order : list nat) :
  (forall i, Forall P (on_done i)) ->
  Forall P (fst (settle outcomes on_done order)).
Proof.
  intros Hdone. induction order as [ | j rest IH]; cbn [settle]; [constructor | ].
  destruct (nth_error outcomes j) as [[v | e] | ].
  - destruct (settle outcomes on_done rest) as [effs rejected]. cbn [fst] in *.
    apply Forall_app. split; [apply Hdone | exact IH].
  - constructor.
  - exact IH.
Qed.

Lemma late_effects (P : effect -> Prop) (rest : list nat) :
  (forall i, Forall P (on_done i)) ->
  Forall P (late outcomes on_done rest).
Proof.
  intros Hdone. unfold late. induction rest as [ | j rest IH]; [constructor | ].
  cbn [flat_map]. apply Forall_app. split; [ | exact IH].
  destruct (nth_error outcomes j) as [[v | e] | ]; [apply Hdone | constructor | constructor].
Qed.

Lemma promise_all_effects (P : effect -> Prop) (schedule : list nat) :
  (forall i, Forall P (on_done i)) ->
  effects_satisfy P (promise_all outcomes on_done schedule).
Proof.
  intros Hdone. unfold promise_all, effects_satisfy.
  pose proof (settle_effects P (completion_order (List.length outcomes) schedule) Hdone)
    as Hnow.
  destruct (settle outcomes on_done _) as [effs [[e rest] | ]]; cbn in *.
  - split; [exact Hnow | apply late_effects; exact Hdone].
  - split; [exact Hnow | constructor].
Qed.

(** A rejected [Promise.all] carries the rejection of one of its items. *)
Lemma promise_all_rejection_is_an_item (schedule : list nat) (e : thrown) :
  outcome (promise_all outcomes on_done schedule) = Throw e ->
  In (Throw e) outcomes.
Proof.
  unfold promise_all.
  destruct (settle outcomes on_done _) as [effs [[e' rest] | ]] eqn:Hsettle;
    cbn [outcome].
  - intros H. injection H as ->.
    apply settle_some in Hsettle. destruct Hsettle as [before [i [_ [Hi _]]]].
    apply (nth_error_In _ _ Hi).
  - clear Hsettle. induction outcomes as [ | o rest IH]; cbn [map_res]; [discriminate | ].
    destruct o as [v | e0].
    + destruct (map_res (fun o => o) rest) as [vs | e1]; [discriminate | ].
      intros H. injection H as ->. right. apply IH. reflexivity.
    + intros H. injection H as ->. left. reflexivity.
Qed.

(** One rejecting item is enough to reject the [Promise.all], whatever the
    other items do and whatever the completion order. *)
Lemma promise_all_rejects (schedule : list nat) (e : thrown) :
  In (Throw e) outcomes ->
  exists e', outcome (promise_all outcomes on_done schedule) = Throw e'.
Proof.
  intros Hin. apply In_nth_error in Hin. destruct Hin as [i Hi].
  unfold promise_all.
  destruct (settle outcomes on_done _) as [effs [[e' rest] | ]] eqn:Hsettle;
    cbn [outcome].
  - exists e'. reflexivity.
  - exfalso. apply (settle_none _ _ Hsettle i e); [ | exact Hi].
    apply completion_order_complete. apply nth_error_Some. congruence.
Qed.

(** When every item resolves, so does the [Promise.all], with the values in
    submission order and nothing left for later. *)
Lemma promise_all_resolves (schedule : list nat) (values : list A) :
  outcomes = map Ok values ->
  outcome (promise_all outcomes on_done schedule) = Ok values
  /\ deferred (promise_all outcomes on_done schedule) = [].
Proof.
  intros Hall.
  assert (Hmap : map_res (fun o => o) outcomes = Ok values).
  { rewrite Hall. clear. induction values as [ | v rest IH]; [reflexivity | ].
    cbn [map map_res]. rewrite IH. reflexivity. }
  unfold promise_all.
  destruct (settle outcomes on_done _) as [effs [[e' rest] | ]] eqn:Hsettle;
    cbn [outcome deferred].
  - exfalso. apply settle_some in Hsettle.
    destruct Hsettle as [before [i [_ [Hi _]]]].
    apply nth_error_In in Hi. rewrite Hall in Hi. apply in_map_iff in Hi.
    destruct Hi as [v [Hv _]]. discriminate.
  - split; [exact Hmap | reflexivity].
Qed.

Lemma promise_all_resolved (schedule : list nat) (values : list A) :
  outcome (promise_all outcomes on_done schedule) = Ok values ->
  outcomes = map Ok values.
Proof.
  unfold promise_all.
  destruct (settle outcomes on_done _) as [effs [[e' rest] | ]];
    cbn [outcome]; [discriminate | ].
  revert values. induction outcomes as [ | o rest IH]; intros values; cbn [map_res].
  - intros H. injection H as <-. reflexivity.
  - destruct o as [v | e]; [ | discriminate].
    destruct (map_res (fun o => o) rest) as [vs | e]; [ | discriminate].
    intros H. injection H as <-. cbn [map]. f_equal. apply IH. reflexivity.
Qed.

End PromiseFacts.

(** ** The effects of a run *)

Section RunFacts.

Local Open Scope M_scope.

Lemma effects_ret (P : effect -> Prop) {A} (a : A) : effects_satisfy P (ret a).
Proof. split; constructor. Qed.

Lemma effects_lift (P : effect -> Prop) {A} (r : res A) : effects_satisfy P (lift r).
Proof. split; constructor. Qed.

Lemma effects_tell (P : effect -> Prop) (es : list effect) :
  Forall P es -> effects_satisfy P (tell es).
Proof. intros H. split; [exact H | constructor]. Qed.

Lemma effects_bind (P : effect -> Prop) {A B} (m : M A) (k : A -> M B) :
  effects_satisfy P m ->
  (forall a, outcome m = Ok a -> effects_satisfy P (k a)) ->
  effects_satisfy P (bindM m k).
Proof.
  intros [Hp Hd] Hk. unfold bindM, effects_satisfy.
  destruct (outcome m) as [a | e]; cbn [performed deferred].
  - destruct (Hk a eq_refl) as [Hp' Hd'].
    split; apply Forall_app; split; assumption.
  - split; assumption.
Qed.

Lemma Forall_map_effect (P : effect -> Prop) {A} (f : A -> effect) (xs : list A) :
  (forall x, P (f x)) -> Forall P (map f xs).
Proof.
  intros H. apply Forall_forall. intros e He. apply in_map_iff in He.
  destruct He as [x [<- _]]. apply H.
Qed.

(** The stages only move the progress forward to a number, read and strip
    files, publish the previews and, for a logged-in user, call the upload
    collaborator with [endpoints blossomServers]. *)
Lemma stages_effects (P : effect -> Prop) (w : world) (isLoggedIn : bool)
    (blossomServers : option (list string)) (files : list File) :
  (forall p, P (SetProgress (Some p))) ->
  (forall f, P (GetBase64 f)) ->
  (forall ps, P (SetPreviews ps)) ->
  (forall f, P (StripImageMetadata f)) ->
  (isLoggedIn = true -> forall f, P (BlossomUploadImages f (endpoints blossomServers))) ->
  effects_satisfy P (stages w isLoggedIn blossomServers files).
Proof.
  intros Hprogress Hread Hpreviews Hstrip Hupload. unfold stages.
  apply effects_bind; [apply effects_lift | intros _ _].
  apply effects_bind; [apply effects_tell; repeat constructor; apply Hprogress | intros _ _].
  apply effects_bind; [apply effects_tell, Forall_map_effect, Hread | intros _ _].
  apply effects_bind; [apply promise_all_effects; intros; constructor | intros previewsList _].
  apply effects_bind; [apply effects_tell; repeat constructor; apply Hpreviews | intros _ _].
  apply effects_bind; [apply effects_tell, Forall_map_effect, Hstrip | intros _ _].
  apply effects_bind;
    [apply promise_all_effects; intros; repeat constructor; apply Hprogress
    | intros strippedImageFiles _].
  destruct isLoggedIn; [ | apply effects_ret].
  apply effects_bind;
    [apply effects_tell, Forall_map_effect, Hupload; reflexivity | intros _ _].
  apply promise_all_effects; intros; repeat constructor; apply Hprogress.
Qed.

Lemma failure_texts_app (es es' : list effect) :
  failure_texts (es ++ es') = failure_texts es ++ failure_texts es'.
Proof. apply flat_map_app. Qed.

Lemma upload_calls_app (es es' : list effect) :
  upload_calls (es ++ es') = upload_calls es ++ upload_calls es'.
Proof. apply flat_map_app. Qed.

Lemma no_failure_texts (es : list effect) :
  Forall (fun e => ~ is_failure_text e) es -> failure_texts es = [].
Proof.
  induction 1 as [ | e rest He _ IH]; [reflexivity | ].
  cbn [failure_texts flat_map]. fold (failure_texts rest). rewrite IH.
  destruct e; try reflexivity. exfalso. apply He. exact I.
Qed.

Lemma stages_no_failure_text (w : world) (isLoggedIn : bool)
    (blossomServers : option (list string)) (files : list File) :
  failure_texts (performed (stages w isLoggedIn blossomServers files)) = [].
Proof.
  apply no_failure_texts.
  apply (stages_effects (fun e => ~ is_failure_text e)); cbn; tauto.
Qed.

Lemma stages_no_late_failure_text (w : world) (isLoggedIn : bool)
    (blossomServers : option (list string)) (files : list File) :
  failure_texts (deferred (stages w isLoggedIn blossomServers files)) = [].
Proof.
  apply no_failure_texts.
  apply (stages_effects (fun e => ~ is_failure_text e)); cbn; tauto.
Qed.

Lemma run_app (s : ui) (es es' : list effect) :
  run s (es ++ es') = run (run s es) es'.
Proof. apply fold_left_app. Qed.

Lemma uploadImages_ending (w : world) (isLoggedIn : bool)
    (blossomServers : option (list string)) (files : list File) :
  ending w isLoggedIn blossomServers files.
Proof.
  destruct (outcome (stages w isLoggedIn blossomServers files)) as [responses | e]
    eqn:Hstages.
  - destruct (resolve_urls_total responses) as [urls Hurls].
    apply (Reported _ _ _ _ responses urls Hstages Hurls).
    unfold uploadImages, try_catch, try_block, bindM. rewrite Hstages.
    unfold finalize, bindM, lift. cbn [outcome performed deferred].
    rewrite Hurls. cbn [tell defer outcome performed deferred app].
    destruct (0 <? List.length urls)%nat; reflexivity.
  - apply (Caught _ _ _ _ e Hstages).
    unfold uploadImages, try_catch, try_block, bindM. rewrite Hstages.
    cbn [outcome performed deferred]. reflexivity.
Qed.

End RunFacts.

(** ** Validation of a batch *)

Section ValidationClaims.

Lemma bind_outcome {A B} (m : M A) (k : A -> M B) :
  outcome (bindM m k) =
  match outcome m with
  | Ok a => outcome (k a)
  | Throw e => Throw e
  end.
Proof. unfold bindM. destruct (outcome m); reflexivity. Qed.

Lemma stages_invalid (w : world) (isLoggedIn : bool)
    (blossomServers : option (list string)) (files : list File) (e : thrown) :
  validate files = Throw e ->
  stages w isLoggedIn blossomServers files = mkM [] [] (Throw e).
Proof.
  intros Hv. unfold stages, bindM at 1. cbn [lift outcome performed deferred].
  rewrite Hv. reflexivity.
Qed.

Lemma stages_valid_head (w : world) (isLoggedIn : bool)
    (blossomServers : option (list string)) (files : list File) :
  validate files = Ok tt ->
  exists rest,
    performed (stages w isLoggedIn blossomServers files)
    = SetProgress (Some 0%Z) :: rest.
Proof.
  intros Hv. unfold stages, bindM at 1. cbn [lift outcome performed deferred].
  rewrite Hv. cbn [performed app]. unfold bindM at 1.
  cbn [tell outcome performed deferred app]. eexists. reflexivity.
Qed.

(** C4: the batch is turned away as a whole, with one message and before
    any file is read, stripped or uploaded, exactly when one of its files
    has a type outside the allow-list or more than 5,242,880 bytes. *)
Theorem validation_rejects_whole_batch (w : world) (isLoggedIn : bool)
    (blossomServers : option (list string)) (files : list File) :
  (exists f, In f files
             /\ (~ In (type f) ["image/jpeg"; "image/png"; "image/webp"]
                 \/ (5242880 < size f)%Z))
  <->
  (exists msg, (msg = type_message \/ msg = size_message)
               /\ uploadImages w isLoggedIn blossomServers files = aborted msg).
Proof.
  split.
  - intros Hoff. apply validate_throws_iff in Hoff.
    destruct Hoff as [msg [Hv Hmsg]]. exists msg. split; [exact Hmsg | ].
    unfold uploadImages, try_catch, try_block, bindM.
    rewrite (stages_invalid _ _ _ _ _ Hv). reflexivity.
  - intros [msg [Hmsg Hrun]].
    destruct (validate_cases files) as [Hv | Hv].
    + exfalso. destruct (stages_valid_head w isLoggedIn blossomServers files Hv)
        as [rest Hhead].
      destruct (uploadImages_ending w isLoggedIn blossomServers files)
        as [e _ Heq | responses urls _ _ Heq];
        rewrite Hrun in Heq; unfold aborted in Heq;
        injection Heq as Hperformed _; rewrite Hhead in Hperformed;
        discriminate.
    + apply validate_throws_iff.
      destruct Hv as [Hv | Hv]; eexists; (split; [exact Hv | tauto]).
Qed.

End ValidationClaims.

(** ** The sanitizer *)

Section SanitizerClaims.

(** C8: a file of an accepted type comes out of [stripImageMetadata] with
    the same declared type. *)
Theorem stripped_file_keeps_type (c : canvas) (imageFile stripped : File) :
  In (type imageFile) ALLOWED_TYPES ->
  stripImageMetadata c imageFile = Ok stripped ->
  type stripped = type imageFile.
Proof.
  intros Hallowed. unfold stripImageMetadata.
  destruct (loads c); [ | discriminate].
  destruct (has_context c); [ | discriminate].
  destruct (blob c) as [b | ]; [ | discriminate].
  intros H. injection H as <-. cbn [new_File type].
  destruct Hallowed as [<- | [<- | [<- | []]]]; reflexivity.
Qed.

Lemma stripped_file_keeps_type_witness :
  type (new_File [] "a.jpg" "image/jpeg" 1700000000000) = type Examples.photo_a.
Proof.
  apply (stripped_file_keeps_type Examples.good_canvas Examples.photo_a).
  - cbn. left. reflexivity.
  - reflexivity.
Defined.

(** The hypothesis on the type is used: the [File] constructor lowers the
    case of the type it is given. *)
Example stripped_type_is_lowered :
  type (new_File [] "a.png" "image/PNG" 0) = "image/png".
Proof. reflexivity. Qed.

End SanitizerClaims.

(** ** Runs of [uploadImages] *)

Section RunClaims.

Local Open Scope M_scope.

(** Case analysis on how the next [Promise.all] of the goal settles. *)
Ltac case_promise_all :=
  match goal with
  | |- context [outcome (promise_all ?outcomes ?on_done ?schedule)] =>
      destruct (outcome (promise_all outcomes on_done schedule))
  end.

Variable w : world.
Variable blossomServers : option (list string).
Variable files : list File.

Lemma no_upload_calls (es : list effect) :
  Forall (fun e => ~ is_upload_call e) es -> upload_calls es = [].
Proof.
  induction 1 as [ | e rest He _ IH]; [reflexivity | ].
  cbn [upload_calls flat_map]. fold (upload_calls rest). rewrite IH.
  destruct e; try reflexivity. exfalso. apply He. exact I.
Qed.

Lemma stages_logged_out_effects :
  effects_satisfy (fun e => ~ is_upload_call e) (stages w false blossomServers files).
Proof. apply stages_effects; cbn; try tauto. discriminate. Qed.

Lemma stages_logged_out_responses (responses : list value) :
  outcome (stages w false blossomServers files) = Ok responses -> responses = [].
Proof.
  unfold stages. rewrite !bind_outcome.
  destruct (outcome (lift (validate files))); [ | discriminate].
  cbn [tell outcome].
  case_promise_all; [ | discriminate].
  rewrite !bind_outcome. cbn [tell outcome].
  case_promise_all; [ | discriminate].
  cbn [ret outcome]. intros H. injection H as <-. reflexivity.
Qed.

(** C5: for a valid batch and a user who is not logged in, the upload
    collaborator is never called, neither before the run returns nor
    after, and the run returns no URL. *)
Theorem logged_out_run_uploads_nothing :
  validate files = Ok tt ->
  outcome (uploadImages w false blossomServers files) = Ok []
  /\ upload_calls (performed (uploadImages w false blossomServers files)) = []
  /\ upload_calls (deferred (uploadImages w false blossomServers files)) = [].
Proof.
  intros _. destruct stages_logged_out_effects as [Hp Hd].
  apply no_upload_calls in Hp. apply no_upload_calls in Hd.
  destruct (uploadImages_ending w false blossomServers files)
    as [e _ Heq | responses urls Hstages Hurls Heq]; rewrite Heq;
    cbn [outcome performed deferred]; rewrite !upload_calls_app, Hp, Hd.
  - repeat split.
  - apply stages_logged_out_responses in Hstages. subst responses.
    injection Hurls as <-. cbn. repeat split.
Qed.

(** C6: when the stages went through and no URL came out of the
    responses, the run returns the empty list and sets one failure text,
    the one that points at the media server setting, and opens the failure
    modal; nothing it leaves for later sets another. *)
Theorem empty_resolution_reports_once (isLoggedIn : bool) (s : ui)
    (responses : list value) :
  outcome (stages w isLoggedIn blossomServers files) = Ok responses ->
  Resolver.resolve_urls responses = Ok [] ->
  let r := uploadImages w isLoggedIn blossomServers files in
  outcome r = Ok []
  /\ failure_texts (performed r) = [no_url_message]
  /\ failure_texts (deferred r) = []
  /\ failureText (run s (performed r)) = no_url_message
  /\ showFailureModal (run s (performed r)) = true.
Proof.
  intros Hstages Hurls r. subst r.
  destruct (uploadImages_ending w isLoggedIn blossomServers files)
    as [e Hthrow _ | responses' urls Hstages' Hurls' Heq]; [congruence | ].
  assert (responses' = responses) by congruence. subst responses'.
  assert (urls = []) by congruence. subst urls.
  rewrite Heq. cbn [outcome performed deferred List.length Nat.ltb Nat.leb].
  split; [reflexivity | ].
  rewrite !failure_texts_app, stages_no_failure_text, stages_no_late_failure_text,
    run_app.
  repeat split.
Qed.

(** The three ways of the specification to end with no URL. *)
Lemma no_url_causes (isLoggedIn : bool) (responses : list value) :
  outcome (stages w isLoggedIn blossomServers files) = Ok responses ->
  isLoggedIn = false
  \/ (forall response, In response responses -> isArray response = false)
  \/ (forall response, In response responses ->
        Resolver.resolve_urls [response] = Ok []) ->
  Resolver.resolve_urls responses = Ok [].
Proof.
  intros Hstages Hcause.
  assert (Hall : forall response, In response responses ->
                   Resolver.resolve_urls [response] = Ok []).
  { destruct Hcause as [-> | [Hshape | Hnone]].
    - apply stages_logged_out_responses in Hstages. subst. intros ? [].
    - intros response Hin. apply resolve_urls_not_array, Hshape, Hin.
    - exact Hnone. }
  clear Hstages Hcause. induction responses as [ | response rest IH]; [reflexivity | ].
  rewrite resolve_urls_cons, (Hall response (or_introl eq_refl)).
  cbn [JS.bind]. rewrite IH; [reflexivity | ].
  intros r Hr. apply Hall. right. exact Hr.
Qed.

(** What the [catch] block does, whatever the [try] block throws: the run
    returns the empty list; at the moment it returns the progress is
    [null], the failure modal is open, and the one failure text that was
    set is the message of the thrown [Error], or the fallback text when
    what was thrown is not an [Error]; nothing the run leaves for later
    sets another failure text.  What it leaves for later may still set the
    progress. *)
Theorem failure_is_caught (isLoggedIn : bool) (s : ui) (e : thrown) :
  outcome (try_block w isLoggedIn blossomServers files) = Throw e ->
  let r := uploadImages w isLoggedIn blossomServers files in
  outcome r = Ok []
  /\ progress (run s (performed r)) = None
  /\ showFailureModal (run s (performed r)) = true
  /\ failureText (run s (performed r)) = failure_message e
  /\ failure_texts (performed r) = [failure_message e]
  /\ failure_texts (deferred r) = []
  /\ match e with
     | ErrorObj message => failure_message e = message
     | NonError _ => failure_message e = fallback_message
     end.
Proof.
  intros Hthrow r. subst r.
  assert (Hstages : outcome (stages w isLoggedIn blossomServers files) = Throw e).
  { unfold try_block in Hthrow. rewrite bind_outcome in Hthrow.
    destruct (outcome (stages w isLoggedIn blossomServers files)) as [responses | e0];
      [ | exact Hthrow].
    exfalso. unfold finalize in Hthrow. rewrite bind_outcome in Hthrow.
    destruct (resolve_urls_total responses) as [urls Hurls].
    cbn [lift outcome] in Hthrow. rewrite Hurls in Hthrow.
    rewrite !bind_outcome in Hthrow. cbn [tell defer outcome] in Hthrow.
    destruct (0 <? List.length urls)%nat; discriminate. }
  destruct (uploadImages_ending w isLoggedIn blossomServers files)
    as [e' Hthrow' Heq | responses urls Hok _ _]; [ | congruence].
  assert (e' = e) by congruence. subst e'.
  rewrite Heq. cbn [outcome performed deferred].
  rewrite !failure_texts_app, stages_no_failure_text, stages_no_late_failure_text,
    run_app.
  repeat split. destruct e; reflexivity.
Qed.

End RunClaims.

Section RunWitnesses.

Import Examples.

Lemma logged_out_run_uploads_nothing_witness :
  outcome (uploadImages second_finishes_first false None [photo_a; photo_b]) = Ok []
  /\ upload_calls
       (performed (uploadImages second_finishes_first false None [photo_a; photo_b])) = []
  /\ upload_calls
       (deferred (uploadImages second_finishes_first false None [photo_a; photo_b])) = [].
Proof.
  apply (logged_out_run_uploads_nothing second_finishes_first None [photo_a; photo_b]).
  reflexivity.
Defined.

Lemma empty_resolution_reports_once_witness :
  outcome (uploadImages answers_without_url true None [photo_a]) = Ok []
  /\ failure_texts (performed (uploadImages answers_without_url true None [photo_a]))
     = [no_url_message].
Proof.
  destruct (empty_resolution_reports_once answers_without_url None [photo_a] true
              initial_ui [VArr [VArr [VStr "size"; VStr "100"]]])
    as [Hout [Htexts _]].
  - reflexivity.
  - reflexivity.
  - split; [exact Hout | exact Htexts].
Defined.

Lemma failure_is_caught_witness :
  outcome (uploadImages first_upload_fails true None [photo_a; photo_b]) = Ok []
  /\ progress
       (run initial_ui
          (performed (uploadImages first_upload_fails true None [photo_a; photo_b])))
     = None
  /\ failure_texts
       (performed (uploadImages first_upload_fails true None [photo_a; photo_b]))
     = ["Failed to fetch"].
Proof.
  destruct (failure_is_caught first_upload_fails None [photo_a; photo_b] true
              initial_ui (ErrorObj "Failed to fetch"))
    as [Hout [Hprogress [_ [_ [Htexts _]]]]].
  - reflexivity.
  - repeat split; assumption.
Defined.

End RunWitnesses.

(** ** Failures of single items *)

Section ItemFailures.

Local Open Scope M_scope.

Import Examples.

Lemma bindM_ext {A B} (m : M A) (k k' : A -> M B) :
  (forall a, outcome m = Ok a -> k a = k' a) -> bindM m k = bindM m k'.
Proof.
  intros Hk. unfold bindM. destruct (outcome m) as [a | e]; [ | reflexivity].
  rewrite (Hk a eq_refl). reflexivity.
Qed.

(** Once the strip stage rejects, the run no longer depends on whether the
    user is logged in: the upload stage is never reached. *)
Lemma stages_strip_rejected (w : world) (isLoggedIn : bool)
    (blossomServers : option (list string)) (files : list File) (e : thrown) :
  outcome (promise_all (strip_outcomes w files) (strip_done (List.length files))
             (strip_order w)) = Throw e ->
  stages w isLoggedIn blossomServers files = stages w false blossomServers files.
Proof.
  intros Hrejected. unfold stages.
  do 7 (apply bindM_ext; intros). congruence.
Qed.

Lemma stages_outcome (w : world) (isLoggedIn : bool)
    (blossomServers : option (list string)) (files : list File)
    (previewsList : list Preview.preview) :
  validate files = Ok tt ->
  preview_outcomes w files = map Ok previewsList ->
  outcome (stages w isLoggedIn blossomServers files) =
  match outcome (promise_all (strip_outcomes w files) (strip_done (List.length files))
                   (strip_order w)) with
  | Throw e => Throw e
  | Ok strippedImageFiles =>
      if isLoggedIn then
        outcome (promise_all (upload_outcomes w blossomServers strippedImageFiles)
                   (upload_done (List.length strippedImageFiles)) (upload_order w))
      else Ok []
  end.
Proof.
  intros Hvalid Hpreviews. unfold stages.
  rewrite !bind_outcome. cbn [lift tell outcome]. rewrite Hvalid.
  rewrite (proj1 (promise_all_resolves _ _ _ _ Hpreviews)).
  rewrite !bind_outcome. cbn [tell outcome].
  destruct (outcome (promise_all (strip_outcomes w files) _ _)) as [stripped | e];
    [ | reflexivity].
  destruct isLoggedIn; [ | reflexivity].
  rewrite bind_outcome. reflexivity.
Qed.

Lemma caught_run (w : world) (isLoggedIn : bool)
    (blossomServers : option (list string)) (files : list File) (e : thrown) :
  outcome (stages w isLoggedIn blossomServers files) = Throw e ->
  outcome (uploadImages w isLoggedIn blossomServers files) = Ok []
  /\ failure_texts (performed (uploadImages w isLoggedIn blossomServers files))
     = [failure_message e]
  /\ upload_calls (performed (uploadImages w isLoggedIn blossomServers files))
     = upload_calls (performed (stages w isLoggedIn blossomServers files)).
Proof.
  intros Hthrow.
  destruct (uploadImages_ending w isLoggedIn blossomServers files)
    as [e' Hthrow' Heq | responses urls Hok _ _]; [ | congruence].
  assert (e' = e) by congruence. subst e'. rewrite Heq. cbn [outcome performed].
  rewrite failure_texts_app, stages_no_failure_text, upload_calls_app.
  cbn. rewrite app_nil_r. repeat split.
Qed.

(** C3, as stated, fails: with two files whose first upload is rejected
    and whose second upload answers with a URL, the run returns no URL at
    all. *)
Lemma sibling_url_is_dropped :
  upload_response first_upload_fails 0 (stripped photo_a) (endpoints None)
  = Throw (ErrorObj "Failed to fetch")
  /\ upload_response first_upload_fails 1 (stripped photo_b) (endpoints None)
     = Ok (url_tags "https://x/b.jpg")
  /\ Resolver.resolve_urls [url_tags "https://x/b.jpg"] = Ok [VStr "https://x/b.jpg"]
  /\ outcome (uploadImages first_upload_fails true None [photo_a; photo_b]) = Ok []
  /\ ~ collects_survivors first_upload_fails None [photo_a; photo_b].
Proof.
  do 4 (split; [reflexivity | ]).
  intros Hcollects.
  destruct (Hcollects [stripped photo_a; stripped photo_b] 1 (stripped photo_b)
              (url_tags "https://x/b.jpg") (VStr "https://x/b.jpg")
              eq_refl eq_refl eq_refl eq_refl) as [urls [Hout Hin]].
  cbv in Hout. injection Hout as <-. destruct Hin.
Qed.

(** C3, amended: a failing item is not isolated.  In a run that got past
    validation and the previews, a file that cannot be stripped rejects
    the strip stage and no file of the batch is uploaded; for a logged-in
    user whose files were all stripped, an upload that is rejected rejects
    the upload stage.  Either way the stage rejects with the failure of one
    of its items, the run returns no URL, whatever the other items
    yielded, and sets that failure's text. *)
Theorem rejected_item_rejects_the_run (w : world) (isLoggedIn : bool)
    (blossomServers : option (list string)) (files : list File)
    (previewsList : list Preview.preview) :
  validate files = Ok tt ->
  preview_outcomes w files = map Ok previewsList ->
  (forall e, In (Throw e) (strip_outcomes w files) ->
     exists e',
       In (Throw e') (strip_outcomes w files)
       /\ outcome (stages w isLoggedIn blossomServers files) = Throw e'
       /\ outcome (uploadImages w isLoggedIn blossomServers files) = Ok []
       /\ failure_texts (performed (uploadImages w isLoggedIn blossomServers files))
          = [failure_message e']
       /\ upload_calls (performed (uploadImages w isLoggedIn blossomServers files)) = [])
  /\ (forall strippedImageFiles e,
        isLoggedIn = true ->
        strip_outcomes w files = map Ok strippedImageFiles ->
        In (Throw e) (upload_outcomes w blossomServers strippedImageFiles) ->
        exists e',
          In (Throw e') (upload_outcomes w blossomServers strippedImageFiles)
          /\ outcome (stages w isLoggedIn blossomServers files) = Throw e'
          /\ outcome (uploadImages w isLoggedIn blossomServers files) = Ok []
          /\ failure_texts (performed (uploadImages w isLoggedIn blossomServers files))
             = [failure_message e']).
Proof.
  intros Hvalid Hpreviews.
  pose proof (stages_outcome w isLoggedIn blossomServers files previewsList
                Hvalid Hpreviews) as Hstages.
  split.
  - intros e Hin.
    destruct (promise_all_rejects (strip_outcomes w files)
                (strip_done (List.length files)) (strip_order w) e Hin) as [e' Hrej].
    exists e'. rewrite Hrej in Hstages.
    split; [apply (promise_all_rejection_is_an_item _ _ _ _ Hrej) | ].
    split; [exact Hstages | ].
    destruct (caught_run _ _ _ _ _ Hstages) as [Hout [Htexts Hcalls]].
    split; [exact Hout | ]. split; [exact Htexts | ].
    rewrite Hcalls, (stages_strip_rejected _ _ _ _ _ Hrej).
    apply no_upload_calls. apply stages_logged_out_effects.
  - intros strippedImageFiles e -> Hstripped Hin.
    rewrite (proj1 (promise_all_resolves _ _ _ _ Hstripped)) in Hstages.
    destruct (promise_all_rejects (upload_outcomes w blossomServers strippedImageFiles)
                (upload_done (List.length strippedImageFiles)) (upload_order w) e Hin)
      as [e' Hrej].
    exists e'. rewrite Hrej in Hstages.
    split; [apply (promise_all_rejection_is_an_item _ _ _ _ Hrej) | ].
    split; [exact Hstages | ].
    destruct (caught_run _ _ _ _ _ Hstages) as [Hout [Htexts _]].
    split; [exact Hout | exact Htexts].
Qed.

Lemma rejected_item_rejects_the_run_witness :
  exists e',
    In (Throw e')
       (upload_outcomes first_upload_fails None [stripped photo_a; stripped photo_b])
    /\ outcome (stages first_upload_fails true None [photo_a; photo_b]) = Throw e'
    /\ outcome (uploadImages first_upload_fails true None [photo_a; photo_b]) = Ok []
    /\ failure_texts
         (performed (uploadImages first_upload_fails true None [photo_a; photo_b]))
       = [failure_message e'].
Proof.
  refine (proj2 (rejected_item_rejects_the_run first_upload_fails true None
                   [photo_a; photo_b]
                   [Preview.mk "data:image/jpeg;base64," "a.jpg" 2048;
                    Preview.mk "data:image/jpeg;base64," "b.jpg" 2048]
                   eq_refl eq_refl)
            [stripped photo_a; stripped photo_b] (ErrorObj "Failed to fetch")
            eq_refl eq_refl _).
  left. reflexivity.
Defined.

(** C7 at a failing input: two valid files and a logged-in user; the
    upload of the first file is rejected while the upload of the second is
    still in flight.  The [catch] block returns the empty list, sets the
    one failure text and resets the progress to [null], and arms no timer.
    The second upload then resolves and the rest of its callback sets the
    progress to 100, where it stays: the progress does not end at the
    sentinel. *)
Theorem late_upload_undoes_progress_reset :
  let r := uploadImages first_upload_fails true None [photo_a; photo_b] in
  validate [photo_a; photo_b] = Ok tt
  /\ outcome (try_block first_upload_fails true None [photo_a; photo_b])
     = Throw (ErrorObj "Failed to fetch")
  /\ outcome r = Ok []
  /\ failure_texts (performed r) = ["Failed to fetch"]
  /\ progress (run initial_ui (performed r)) = None
  /\ ~ In (SetTimeout 500) (performed r)
  /\ deferred r = [SetProgress (Some 100%Z)]
  /\ progress (run initial_ui (performed r ++ deferred r)) = Some 100%Z.
Proof.
  cbv zeta. do 5 (split; [reflexivity | ]).
  split; [ | split; reflexivity].
  cbn. intros H. repeat (destruct H as [H | H]; [discriminate H | ]). exact H.
Qed.

(** The items that were still in flight when the stage rejected settle
    afterwards: here the second upload resolves once the [catch] block has
    cleared the progress, and sets it to 100. *)
Example late_sibling_sets_progress :
  deferred (uploadImages first_upload_fails true None [photo_a; photo_b])
  = [SetProgress (Some 100%Z)].
Proof. reflexivity. Qed.

(** A file that cannot be decoded keeps its sibling from being uploaded. *)
Example undecodable_file_stops_the_batch :
  uploadImages first_strip_fails true None [photo_a; photo_b]
  = mkM [SetProgress (Some 0%Z); GetBase64 photo_a; GetBase64 photo_b;
         SetPreviews [Preview.mk "data:image/jpeg;base64," "a.jpg" 2048;
                      Preview.mk "data:image/jpeg;base64," "b.jpg" 2048];
         StripImageMetadata photo_a; StripImageMetadata photo_b;
         SetProgress None; SetFailureText "Failed to load image";
         SetShowFailureModal true]
        [SetProgress (Some 30%Z)]
        (Ok []).
Proof. reflexivity. Qed.

End ItemFailures.

(** ** Progress *)

Section ProgressFacts.

Import Examples.

Context {A : Type}.

Lemma settle_resolved (values : list A) (on_done : nat -> list effect)
    (order : list nat) :
  (forall i, In i order -> i < List.length values) ->
  settle (map Ok values) on_done order = (flat_map on_done order, None).
Proof.
  induction order as [ | i rest IH]; intros Hrange; [reflexivity | ].
  cbn [settle flat_map].
  destruct (nth_error (map Ok values) i) as [[v | e] | ] eqn:Hi.
  - rewrite IH; [reflexivity | ]. intros j Hj. apply Hrange. right. exact Hj.
  - apply nth_error_In, in_map_iff in Hi. destruct Hi as [v [Hv _]]. discriminate.
  - apply nth_error_None in Hi. rewrite length_map in Hi.
    specialize (Hrange i (or_introl eq_refl)). lia.
Qed.

(** In a stage whose items all resolve, the callbacks run in completion
    order, each with the effect of its own index. *)
Lemma promise_all_follows_completion_order (values : list A)
    (on_done : nat -> list effect) (schedule : list nat) :
  performed (promise_all (map Ok values) on_done schedule)
  = flat_map on_done (completion_order (List.length values) schedule).
Proof.
  unfold promise_all. rewrite length_map, settle_resolved; [reflexivity | ].
  intros i Hi. apply (completion_order_in_range _ _ _ Hi).
Qed.






End ProgressFacts.

Section ProgressClaims.

Import Examples.

(** C1 at a failing input: two valid files, a logged-in user, every
    operation succeeds, and in both stages the second file finishes before
    the first.  The progress goes 0, 30, 15, 100, 65: it drops twice, shows
    30 before the strip stage is over and 100 before the upload stage is
    over, and is left at 65 when the run returns both URLs. *)
Theorem progress_drops_when_second_finishes_first :
  let r := uploadImages second_finishes_first true None [photo_a; photo_b] in
  validate [photo_a; photo_b] = Ok tt
  /\ outcome r = Ok [VStr "https://x/a.jpg"; VStr "https://x/b.jpg"]
  /\ progress_updates (performed r)
     = [Some 0%Z; Some 30%Z; Some 15%Z; Some 100%Z; Some 65%Z]
  /\ ~ nondecreasing [0%Z; 30%Z; 15%Z; 100%Z; 65%Z]
  /\ progress (run initial_ui (performed r)) = Some 65%Z.
Proof.
  cbv zeta. do 3 (split; [reflexivity | ]). split; [ | reflexivity].
  cbn [nondecreasing]. lia.
Qed.

(** When the files finish in the order they were submitted, the same run
    reports 0, 15, 30, 65, 100. *)
Example progress_in_submission_order :
  progress_updates
    (performed
       (uploadImages
          (mkWorld (read_file second_finishes_first) [0; 1]
             (canvas_of second_finishes_first) [0; 1]
             (upload_response second_finishes_first) [0; 1]
             (imgCallbackOnUpload second_finishes_first))
          true None [photo_a; photo_b]))
  = [Some 0%Z; Some 15%Z; Some 30%Z; Some 65%Z; Some 100%Z].
Proof. reflexivity. Qed.

End ProgressClaims.

(** ** The parent's callback *)

Section CallbackClaims.

Import Examples.

(** C10: a server may answer with a url tag that holds the empty string.
    The resolver then yields [""], the run returns it as its one URL
    without any failure text, and both [handleChange] and [handleDrop] call
    the parent's callback with [""], the very argument [removePreview] and
    [clearAll] call it with. *)
Theorem empty_url_reaches_callback_like_a_removal :
  Resolver.resolve_urls [empty_url_response] = Ok [VStr ""]
  /\ upload_response answers_empty_url 0 (stripped photo_a) (endpoints None)
     = Ok empty_url_response
  /\ outcome (uploadImages answers_empty_url true None [photo_a]) = Ok [VStr ""]
  /\ failure_texts (performed (uploadImages answers_empty_url true None [photo_a])) = []
  /\ callback_arguments
       (performed (handleChange answers_empty_url true None (Some [photo_a])))
     = [VStr ""]
  /\ callback_arguments
       (performed (handleDrop answers_empty_url true None [photo_a]))
     = [VStr ""]
  /\ (forall w index,
        callback_arguments (performed (removePreview w index)) = [VStr ""])
  /\ (forall w, callback_arguments (performed (clearAll w)) = [VStr ""]).
Proof. repeat split. Qed.

End CallbackClaims.

(** * Further properties of the component *)

(** ** The shape of a run *)

Section RunShape.

Local Open Scope M_scope.

Import Reading.

Lemma bind_ok {A B} (m : M A) (k : A -> M B) (a : A) :
  outcome m = Ok a ->
  bindM m k = mkM (performed m ++ performed (k a))
                  (deferred m ++ deferred (k a))
                  (outcome (k a)).
Proof. intros H. unfold bindM. rewrite H. reflexivity. Qed.

Lemma map_res_id_Ok {A} (values : list A) :
  map_res (fun o => o) (map Ok values) = Ok values.
Proof.
  induction values as [ | v rest IH]; [reflexivity | ].
  cbn [map map_res]. rewrite IH. reflexivity.
Qed.

(** A [Promise.all] whose items all resolve, in full. *)
Lemma promise_all_clean {A} (values : list A) (on_done : nat -> list effect)
    (schedule : list nat) :
  promise_all (map Ok values) on_done schedule
  = mkM (flat_map on_done (completion_order (List.length values) schedule))
        [] (Ok values).
Proof.
  unfold promise_all. rewrite length_map, settle_resolved.
  - rewrite map_res_id_Ok. reflexivity.
  - intros i Hi. apply (completion_order_in_range _ _ _ Hi).
Qed.

Lemma mapi_from_length {A B} (f : nat -> A -> B) (xs : list A) (start : nat) :
  List.length (mapi_from start f xs) = List.length xs.
Proof.
  revert start. induction xs as [ | x rest IH]; intros start; [reflexivity | ].
  cbn [mapi_from List.length]. rewrite IH. reflexivity.
Qed.

Lemma mapi_length {A B} (f : nat -> A -> B) (xs : list A) :
  List.length (mapi f xs) = List.length xs.
Proof. apply mapi_from_length. Qed.

Lemma mapi_from_nth_error {A B} (f : nat -> A -> B) (xs : list A) (start i : nat) :
  nth_error (mapi_from start f xs) i
  = match nth_error xs i with
    | Some x => Some (f (start + i) x)
    | None => None
    end.
Proof.
  revert start i. induction xs as [ | x rest IH]; intros start i.
  - destruct i; reflexivity.
  - destruct i as [ | i]; cbn [mapi_from nth_error].
    + rewrite Nat.add_0_r. reflexivity.
    + rewrite IH. replace (S start + i) with (start + S i) by lia. reflexivity.
Qed.

Lemma mapi_In {A B} (f : nat -> A -> B) (xs : list A) (y : B) :
  In y (mapi f xs) -> exists i x, nth_error xs i = Some x /\ f i x = y.
Proof.
  intros Hin. apply In_nth_error in Hin. destruct Hin as [i Hi].
  unfold mapi in Hi. rewrite mapi_from_nth_error in Hi.
  destruct (nth_error xs i) as [x | ] eqn:Hx; [ | discriminate].
  exists i, x. split; [exact Hx | ]. cbn in Hi. congruence.
Qed.

Lemma map_Ok_length {A} (outcomes : list (res A)) (values : list A) :
  outcomes = map Ok values -> List.length values = List.length outcomes.
Proof. intros ->. rewrite length_map. reflexivity. Qed.

(** A run in which no item fails, in full: the calls and the progress
    updates it makes, in order; nothing is left for later; the responses
    come in submission order. *)
Lemma stages_clean (w : world) (blossomServers : option (list string))
    (files : list File) (previewsList : list Preview.preview)
    (strippedImageFiles : list File) (responses : list value) :
  validate files = Ok tt ->
  preview_outcomes w files = map Ok previewsList ->
  strip_outcomes w files = map Ok strippedImageFiles ->
  upload_outcomes w blossomServers strippedImageFiles = map Ok responses ->
  stages w true blossomServers files
  = mkM (SetProgress (Some 0%Z)
         :: map GetBase64 files
         ++ SetPreviews previewsList
         :: map StripImageMetadata files
         ++ flat_map (strip_done (List.length files))
              (completion_order (List.length files) (strip_order w))
         ++ map (fun f => BlossomUploadImages f (endpoints blossomServers))
              strippedImageFiles
         ++ flat_map (upload_done (List.length files))
              (completion_order (List.length files) (upload_order w)))
        [] (Ok responses).
Proof.
  intros Hvalid Hpreviews Hstripped Hresponses.
  assert (Hn1 : List.length strippedImageFiles = List.length files).
  { rewrite (map_Ok_length _ _ Hstripped). apply mapi_length. }
  assert (Hn2 : List.length responses = List.length files).
  { rewrite (map_Ok_length _ _ Hresponses). unfold upload_outcomes.
    rewrite mapi_length. exact Hn1. }
  assert (Hn0 : List.length previewsList = List.length files).
  { rewrite (map_Ok_length _ _ Hpreviews). apply mapi_length. }
  unfold stages. rewrite Hvalid, Hpreviews, Hstripped.
  rewrite !promise_all_clean.
  rewrite (bind_ok (lift (Ok tt)) _ tt eq_refl).
  rewrite (bind_ok (tell [SetProgress (Some 0%Z)]) _ tt eq_refl).
  rewrite (bind_ok (tell (map GetBase64 files)) _ tt eq_refl).
  rewrite (bind_ok (mkM _ [] (Ok previewsList)) _ previewsList eq_refl).
  rewrite (bind_ok (tell [SetPreviews previewsList]) _ tt eq_refl).
  rewrite (bind_ok (tell (map StripImageMetadata files)) _ tt eq_refl).
  rewrite (bind_ok (mkM _ [] (Ok strippedImageFiles)) _ strippedImageFiles eq_refl).
  rewrite (bind_ok (tell (map _ strippedImageFiles)) _ tt eq_refl).
  rewrite Hresponses, promise_all_clean.
  cbn [lift tell performed deferred outcome app].
  rewrite Hn0, Hn1, Hn2.
  replace (flat_map (fun _ : nat => [])
             (completion_order (List.length files) (preview_order w)))
    with (@nil effect)
    by (induction (completion_order (List.length files) (preview_order w));
        [reflexivity | assumption]).
  cbn [app]. reflexivity.
Qed.

(** A logged-out run in which no item fails stops after the strip stage. *)
Lemma stages_clean_logged_out (w : world) (blossomServers : option (list string))
    (files : list File) (previewsList : list Preview.preview)
    (strippedImageFiles : list File) :
  validate files = Ok tt ->
  preview_outcomes w files = map Ok previewsList ->
  strip_outcomes w files = map Ok strippedImageFiles ->
  stages w false blossomServers files
  = mkM (SetProgress (Some 0%Z)
         :: map GetBase64 files
         ++ SetPreviews previewsList
         :: map StripImageMetadata files
         ++ flat_map (strip_done (List.length files))
              (completion_order (List.length files) (strip_order w)))
        [] (Ok []).
Proof.
  intros Hvalid Hpreviews Hstripped.
  assert (Hn1 : List.length strippedImageFiles = List.length files).
  { rewrite (map_Ok_length _ _ Hstripped). apply mapi_length. }
  assert (Hn0 : List.length previewsList = List.length files).
  { rewrite (map_Ok_length _ _ Hpreviews). apply mapi_length. }
  unfold stages. rewrite Hvalid, Hpreviews, Hstripped.
  rewrite !promise_all_clean.
  rewrite (bind_ok (lift (Ok tt)) _ tt eq_refl).
  rewrite (bind_ok (tell [SetProgress (Some 0%Z)]) _ tt eq_refl).
  rewrite (bind_ok (tell (map GetBase64 files)) _ tt eq_refl).
  rewrite (bind_ok (mkM _ [] (Ok previewsList)) _ previewsList eq_refl).
  rewrite (bind_ok (tell [SetPreviews previewsList]) _ tt eq_refl).
  rewrite (bind_ok (tell (map StripImageMetadata files)) _ tt eq_refl).
  rewrite (bind_ok (mkM _ [] (Ok strippedImageFiles)) _ strippedImageFiles eq_refl).
  cbn [lift tell ret performed deferred outcome app].
  rewrite Hn0, Hn1.
  replace (flat_map (fun _ : nat => [])
             (completion_order (List.length files) (preview_order w)))
    with (@nil effect)
    by (induction (completion_order (List.length files) (preview_order w));
        [reflexivity | assumption]).
  cbn [app]. rewrite !app_nil_r. reflexivity.
Qed.

(** How the stages can resolve: every item of every stage resolved. *)
Lemma stages_resolved_inv (w : world) (isLoggedIn : bool)
    (blossomServers : option (list string)) (files : list File)
    (responses : list value) :
  outcome (stages w isLoggedIn blossomServers files) = Ok responses ->
  validate files = Ok tt
  /\ exists previewsList strippedImageFiles,
       preview_outcomes w files = map Ok previewsList
       /\ strip_outcomes w files = map Ok strippedImageFiles
       /\ if isLoggedIn
          then upload_outcomes w blossomServers strippedImageFiles = map Ok responses
          else responses = [].
Proof.
  unfold stages. rewrite !bind_outcome. cbn [lift tell outcome].
  destruct (validate files) as [[] | e] eqn:Hvalid; [ | discriminate].
  destruct (outcome (promise_all (preview_outcomes w files) _ _))
    as [previewsList | e] eqn:Hpreviews; [ | discriminate].
  rewrite !bind_outcome. cbn [tell outcome].
  destruct (outcome (promise_all (strip_outcomes w files) _ _))
    as [strippedImageFiles | e] eqn:Hstripped; [ | discriminate].
  intros Hout. split; [reflexivity | ].
  exists previewsList, strippedImageFiles.
  split; [apply (promise_all_resolved _ _ _ _ Hpreviews) | ].
  split; [apply (promise_all_resolved _ _ _ _ Hstripped) | ].
  destruct isLoggedIn.
  - rewrite bind_outcome in Hout. cbn [tell outcome] in Hout.
    apply (promise_all_resolved _ _ _ _ Hout).
  - cbn [ret outcome] in Hout. congruence.
Qed.

(** How the stages can fail: through validation, or through the rejection
    of one item of one stage. *)
Lemma stages_rejected_inv (w : world) (isLoggedIn : bool)
    (blossomServers : option (list string)) (files : list File) (e : thrown) :
  outcome (stages w isLoggedIn blossomServers files) = Throw e ->
  validate files = Throw e
  \/ In (Throw e) (preview_outcomes w files)
  \/ In (Throw e) (strip_outcomes w files)
  \/ (isLoggedIn = true
      /\ exists strippedImageFiles,
           strip_outcomes w files = map Ok strippedImageFiles
           /\ In (Throw e) (upload_outcomes w blossomServers strippedImageFiles)).
Proof.
  unfold stages. rewrite !bind_outcome. cbn [lift tell outcome].
  destruct (validate files) as [[] | e0] eqn:Hvalid;
    [ | intros H; left; injection H as ->; reflexivity].
  destruct (outcome (promise_all (preview_outcomes w files) _ _))
    as [previewsList | e0] eqn:Hpreviews.
  2:{ intros H. injection H as ->. right. left.
      apply (promise_all_rejection_is_an_item _ _ _ _ Hpreviews). }
  rewrite !bind_outcome. cbn [tell outcome].
  destruct (outcome (promise_all (strip_outcomes w files) _ _))
    as [strippedImageFiles | e0] eqn:Hstripped.
  2:{ intros H. injection H as ->. right. right. left.
      apply (promise_all_rejection_is_an_item _ _ _ _ Hstripped). }
  destruct isLoggedIn; [ | discriminate].
  rewrite bind_outcome. cbn [tell outcome]. intros Hout.
  right. right. right. split; [reflexivity | ].
  exists strippedImageFiles.
  split; [apply (promise_all_resolved _ _ _ _ Hstripped) | ].
  apply (promise_all_rejection_is_an_item _ _ _ _ Hout).
Qed.

End RunShape.

(** ** What a run returns and what it shows *)

Section RunOutcomes.

Local Open Scope M_scope.

Import Reading Examples.

Lemma map_res_length {A B} (f : A -> res B) (xs : list A) (ys : list B) :
  map_res f xs = Ok ys -> List.length ys = List.length xs.
Proof.
  revert ys. induction xs as [ | x rest IH]; intros ys; cbn [map_res].
  - intros H. injection H as <-. reflexivity.
  - destruct (f x) as [y | e]; [ | discriminate].
    destruct (map_res f rest) as [ys' | e]; [ | discriminate].
    intros H. injection H as <-. cbn [List.length]. rewrite (IH ys' eq_refl).
    reflexivity.
Qed.

Lemma resolve_urls_sound (responses urls : list value) :
  Resolver.resolve_urls responses = Ok urls ->
  List.length urls <= List.length responses
  /\ Forall (fun url => url <> VNull) urls.
Proof.
  unfold Resolver.resolve_urls.
  destruct (map_res Resolver.resolve_response _) as [found | e] eqn:Hfound;
    cbn [JS.bind]; [ | discriminate].
  intros H. injection H as <-. split.
  - apply map_res_length in Hfound.
    etransitivity; [apply filter_length_le | ].
    rewrite Hfound. apply filter_length_le.
  - apply Forall_forall. intros url Hin. apply filter_In in Hin.
    destruct Hin as [_ Hnn]. intros ->. discriminate.
Qed.

Lemma filter_not_null_id (urls : list value) :
  Forall (fun url => url <> VNull) urls -> filter not_null urls = urls.
Proof.
  induction 1 as [ | url rest Hurl _ IH]; [reflexivity | ].
  cbn [filter]. rewrite IH. destruct url; try reflexivity. congruence.
Qed.

Lemma uploadImages_never_rejects_aux (w : world) (isLoggedIn : bool)
    (blossomServers : option (list string)) (files : list File) :
  exists urls,
    outcome (uploadImages w isLoggedIn blossomServers files) = Ok urls
    /\ Forall (fun url => url <> VNull) urls.
Proof.
  destruct (uploadImages_ending w isLoggedIn blossomServers files)
    as [e _ Heq | responses urls _ Hurls Heq]; rewrite Heq; cbn [outcome].
  - exists []. split; [reflexivity | constructor].
  - destruct (resolve_urls_sound _ _ Hurls) as [_ Hnn].
    destruct (0 <? List.length urls)%nat; eexists; split;
      try reflexivity; [exact Hnn | constructor].
Qed.

(** The promise of [uploadImages] never rejects: what the [try] block
    throws is caught, and neither the [catch] block nor the resolution of
    the URLs throws. *)
Theorem uploadImages_never_rejects (w : world) (isLoggedIn : bool)
    (blossomServers : option (list string)) (files : list File) :
  exists urls, outcome (uploadImages w isLoggedIn blossomServers files) = Ok urls.
Proof.
  destruct (uploadImages_ending w isLoggedIn blossomServers files)
    as [e _ Heq | responses urls _ _ Heq]; rewrite Heq; eexists; reflexivity.
Qed.

(** A run shows a failure exactly when it returns no URL: either it
    returns at least one URL and sets no failure text and does not open
    the modal, or it returns the empty list, sets one failure text and
    opens the modal. *)
Theorem failure_shown_iff_no_url (w : world) (isLoggedIn : bool)
    (blossomServers : option (list string)) (files : list File) :
  let r := uploadImages w isLoggedIn blossomServers files in
  (exists url urls,
      outcome r = Ok (url :: urls)
      /\ failure_texts (performed r) = []
      /\ ~ In (SetShowFailureModal true) (performed r))
  \/ (outcome r = Ok []
      /\ (exists msg, failure_texts (performed r) = [msg])
      /\ In (SetShowFailureModal true) (performed r)).
Proof.
  cbv zeta.
  assert (Hquiet : ~ In (SetShowFailureModal true)
                     (performed (stages w isLoggedIn blossomServers files))).
  { pose proof (stages_effects (fun e => e <> SetShowFailureModal true)
                  w isLoggedIn blossomServers files) as Hst.
    destruct Hst as [Hp _]; try (intros; discriminate).
    rewrite Forall_forall in Hp. intros Hin. apply (Hp _ Hin). reflexivity. }
  destruct (uploadImages_ending w isLoggedIn blossomServers files)
    as [e _ Heq | responses urls _ _ Heq]; rewrite Heq;
    cbn [outcome performed]; rewrite failure_texts_app, stages_no_failure_text.
  - right. split; [reflexivity | ]. split; [eexists; reflexivity | ].
    apply in_or_app. right. cbn. tauto.
  - destruct urls as [ | url urls]; cbn [List.length Nat.ltb Nat.leb].
    + right. split; [reflexivity | ]. split; [eexists; reflexivity | ].
      apply in_or_app. right. cbn. tauto.
    + left. exists url, urls. split; [reflexivity | ]. split; [reflexivity | ].
      intros Hin. apply in_app_or in Hin. destruct Hin as [Hin | Hin];
        [exact (Hquiet Hin) | ].
      cbn in Hin. destruct Hin as [Hin | []]. discriminate.
Qed.

(** A run returns at most one URL per file, and never [null] as a URL. *)
Theorem at_most_one_url_per_file (w : world) (isLoggedIn : bool)
    (blossomServers : option (list string)) (files : list File)
    (urls : list value) :
  outcome (uploadImages w isLoggedIn blossomServers files) = Ok urls ->
  List.length urls <= List.length files
  /\ Forall (fun url => url <> VNull) urls.
Proof.
  destruct (uploadImages_ending w isLoggedIn blossomServers files)
    as [e _ Heq | responses urls' Hstages Hurls Heq]; rewrite Heq;
    cbn [outcome]; intros H; injection H as <-.
  - split; [cbn; lia | constructor].
  - destruct (resolve_urls_sound _ _ Hurls) as [Hlen Hnn].
    destruct (stages_resolved_inv _ _ _ _ _ Hstages)
      as [_ [previewsList [stripped [_ [Hstripped Hresponses]]]]].
    assert (Hresp : List.length responses <= List.length files).
    { destruct isLoggedIn.
      - rewrite (map_Ok_length _ _ Hresponses). unfold upload_outcomes.
        rewrite mapi_length, (map_Ok_length _ _ Hstripped).
        unfold strip_outcomes. rewrite mapi_length. lia.
      - subst responses. cbn. lia. }
    destruct (0 <? List.length urls')%nat; split;
      try (cbn; lia); try constructor; try lia; exact Hnn.
Qed.

Lemma at_most_one_url_per_file_witness :
  List.length [VStr "https://x/a.jpg"; VStr "https://x/b.jpg"]
  <= List.length [photo_a; photo_b]
  /\ Forall (fun url => url <> VNull) [VStr "https://x/a.jpg"; VStr "https://x/b.jpg"].
Proof.
  apply (at_most_one_url_per_file second_finishes_first true None).
  reflexivity.
Defined.

(** When no item fails, the URLs come back in the order the files were
    submitted, one response after the other, whatever the order in which
    the operations settled. *)
Theorem urls_in_submission_order (w : world) (blossomServers : option (list string))
    (files : list File) (previewsList : list Preview.preview)
    (strippedImageFiles : list File) (responses urls : list value) :
  validate files = Ok tt ->
  preview_outcomes w files = map Ok previewsList ->
  strip_outcomes w files = map Ok strippedImageFiles ->
  upload_outcomes w blossomServers strippedImageFiles = map Ok responses ->
  Resolver.resolve_urls responses = Ok urls ->
  outcome (uploadImages w true blossomServers files) = Ok urls.
Proof.
  intros Hvalid Hpreviews Hstripped Hresponses Hurls.
  pose proof (stages_clean w blossomServers files previewsList strippedImageFiles
                responses Hvalid Hpreviews Hstripped Hresponses) as Hstages.
  destruct (uploadImages_ending w true blossomServers files)
    as [e Hthrow _ | responses' urls' Hok Hurls' Heq].
  - rewrite Hstages in Hthrow. discriminate.
  - rewrite Hstages in Hok. cbn [outcome] in Hok.
    assert (responses' = responses) by congruence. subst responses'.
    assert (urls' = urls) by congruence. subst urls'.
    rewrite Heq. cbn [outcome].
    destruct urls; reflexivity.
Qed.

Lemma urls_in_submission_order_witness :
  outcome (uploadImages second_finishes_first true None [photo_a; photo_b])
  = Ok [VStr "https://x/a.jpg"; VStr "https://x/b.jpg"].
Proof.
  apply (urls_in_submission_order second_finishes_first None [photo_a; photo_b]
           [Preview.mk "data:image/jpeg;base64," "a.jpg" 2048;
            Preview.mk "data:image/jpeg;base64," "b.jpg" 2048]
           [stripped photo_a; stripped photo_b]
           [url_tags "https://x/a.jpg"; url_tags "https://x/b.jpg"]);
    reflexivity.
Defined.

End RunOutcomes.

(** ** Where a failure text comes from *)

Section FailureTexts.

Local Open Scope M_scope.

Import Reading Examples.

Lemma preview_rejection (w : world) (files : list File) (e : thrown) :
  In (Throw e) (preview_outcomes w files) -> failure_message e = fallback_message.
Proof.
  intros Hin. apply mapi_In in Hin. destruct Hin as [i [f [_ Hf]]].
  unfold make_preview in Hf. destruct (read_file w i f); [discriminate | ].
  injection Hf as <-. reflexivity.
Qed.

Lemma strip_rejection (w : world) (files : list File) (e : thrown) :
  In (Throw e) (strip_outcomes w files) ->
  In (failure_message e)
     ["Failed to load image"; "Failed to get canvas context"; "Failed to create blob"].
Proof.
  intros Hin. apply mapi_In in Hin. destruct Hin as [i [f [_ Hf]]].
  unfold stripImageMetadata in Hf.
  destruct (loads _); [ | injection Hf as <-; cbn; tauto].
  destruct (has_context _); [ | injection Hf as <-; cbn; tauto].
  destruct (blob _); [discriminate | injection Hf as <-; cbn; tauto].
Qed.

Lemma run_failure_texts (w : world) (isLoggedIn : bool)
    (blossomServers : option (list string)) (files : list File) :
  (exists e, outcome (stages w isLoggedIn blossomServers files) = Throw e
             /\ failure_texts (performed (uploadImages w isLoggedIn blossomServers files))
                = [failure_message e])
  \/ (exists responses urls,
        outcome (stages w isLoggedIn blossomServers files) = Ok responses
        /\ Resolver.resolve_urls responses = Ok urls
        /\ failure_texts (performed (uploadImages w isLoggedIn blossomServers files))
           = if (0 <? List.length urls)%nat then [] else [no_url_message]).
Proof.
  destruct (uploadImages_ending w isLoggedIn blossomServers files)
    as [e Hthrow Heq | responses urls Hok Hurls Heq]; rewrite Heq;
    cbn [performed]; rewrite failure_texts_app, stages_no_failure_text.
  - left. exists e. split; [exact Hthrow | reflexivity].
  - right. exists responses, urls. split; [exact Hok | ]. split; [exact Hurls | ].
    destruct (0 <? List.length urls)%nat; reflexivity.
Qed.

Lemma rejection_message (w : world) (isLoggedIn : bool)
    (blossomServers : option (list string)) (files : list File) (e : thrown) :
  outcome (stages w isLoggedIn blossomServers files) = Throw e ->
  In (failure_message e) built_in_messages
  \/ (isLoggedIn = true
      /\ exists i f e',
           upload_response w i f (endpoints blossomServers) = Throw e'
           /\ failure_message e = failure_message e').
Proof.
  intros Hthrow.
  destruct (stages_rejected_inv _ _ _ _ _ Hthrow)
    as [Hv | [Hp | [Hs | [Hl [stripped [_ Hu]]]]]].
  - left. destruct (validate_cases files) as [Hc | [Hc | Hc]];
      rewrite Hc in Hv; try discriminate; injection Hv as <-; cbn; tauto.
  - left. rewrite (preview_rejection _ _ _ Hp). cbn. tauto.
  - left. apply strip_rejection in Hs. cbn in Hs |- *. tauto.
  - right. split; [exact Hl | ].
    apply mapi_In in Hu. destruct Hu as [i [f [_ Hf]]].
    exists i, f, e. split; [exact Hf | reflexivity].
Qed.

(** Every failure text a run sets is one of seven texts of the component
    (wrong type, too big, the fallback for an unreadable file, the three
    failures of the stripper, no URL), or, for a logged-in user, what the
    [catch] block makes of a rejection of the upload collaborator. *)
Theorem failure_text_origin (w : world) (isLoggedIn : bool)
    (blossomServers : option (list string)) (files : list File) (msg : string) :
  In msg (failure_texts (performed (uploadImages w isLoggedIn blossomServers files))) ->
  In msg built_in_messages
  \/ (isLoggedIn = true
      /\ exists i f e,
           upload_response w i f (endpoints blossomServers) = Throw e
           /\ msg = failure_message e).
Proof.
  intros Hin.
  destruct (run_failure_texts w isLoggedIn blossomServers files)
    as [[e [Hthrow Htexts]] | [responses [urls [_ [_ Htexts]]]]];
    rewrite Htexts in Hin.
  - destruct Hin as [<- | []].
    exact (rejection_message _ _ _ _ _ Hthrow).
  - left. destruct (0 <? List.length urls)%nat; [destruct Hin | ].
    destruct Hin as [<- | []]. cbn. tauto.
Qed.

Lemma failure_text_origin_witness :
  In "Failed to load image" built_in_messages
  \/ (true = true
      /\ exists i f e,
           upload_response first_strip_fails i f (endpoints None) = Throw e
           /\ "Failed to load image" = failure_message e).
Proof.
  apply (failure_text_origin first_strip_fails true None [photo_a; photo_b]).
  cbn. left. reflexivity.
Defined.

(** A user who is not logged in never gets a URL: every run returns the
    empty list and sets exactly one failure text, one of the seven texts
    of the component; when the batch is valid and every file is read and
    stripped, that text is the one about the media server. *)
Theorem logged_out_run_always_fails (w : world)
    (blossomServers : option (list string)) (files : list File) :
  let r := uploadImages w false blossomServers files in
  outcome r = Ok []
  /\ (exists msg, failure_texts (performed r) = [msg] /\ In msg built_in_messages)
  /\ (forall previewsList strippedImageFiles,
        validate files = Ok tt ->
        preview_outcomes w files = map Ok previewsList ->
        strip_outcomes w files = map Ok strippedImageFiles ->
        failure_texts (performed r) = [no_url_message]).
Proof.
  cbv zeta.
  assert (Hout : outcome (uploadImages w false blossomServers files) = Ok []).
  { destruct (uploadImages_ending w false blossomServers files)
      as [e _ Heq | responses urls Hok Hurls Heq]; rewrite Heq; [reflexivity | ].
    destruct (stages_resolved_inv _ _ _ _ _ Hok) as [_ [? [? [_ [_ ->]]]]].
    injection Hurls as <-. reflexivity. }
  split; [exact Hout | ]. split.
  - destruct (run_failure_texts w false blossomServers files)
      as [[e [Hthrow Htexts]] | [responses [urls [Hok [Hurls Htexts]]]]].
    + exists (failure_message e). split; [exact Htexts | ].
      destruct (rejection_message _ _ _ _ _ Hthrow) as [H | [H _]];
        [exact H | discriminate H].
    + destruct (stages_resolved_inv _ _ _ _ _ Hok) as [_ [? [? [_ [_ ->]]]]].
      injection Hurls as <-. exists no_url_message.
      split; [exact Htexts | cbn; tauto].
  - intros previewsList stripped Hvalid Hpreviews Hstripped.
    destruct (run_failure_texts w false blossomServers files)
      as [[e [Hthrow _]] | [responses [urls [Hok [Hurls Htexts]]]]].
    + rewrite (stages_clean_logged_out _ _ _ _ _ Hvalid Hpreviews Hstripped)
        in Hthrow. discriminate.
    + destruct (stages_resolved_inv _ _ _ _ _ Hok) as [_ [? [? [_ [_ ->]]]]].
      injection Hurls as <-. exact Htexts.
Qed.

End FailureTexts.

Section RunEffects.

Lemma run_effects_aux (w : world) (isLoggedIn : bool)
    (blossomServers : option (list string)) (files : list File)
    (P : effect -> Prop) :
  Forall P (performed (stages w isLoggedIn blossomServers files)) ->
  P (SetProgress None) ->
  (forall t, P (SetFailureText t)) ->
  P (SetShowFailureModal true) ->
  P (SetTimeout 500) ->
  Forall P (performed (uploadImages w isLoggedIn blossomServers files)).
Proof.
  intros Hst Hnull Htext Hmodal Htimer.
  destruct (uploadImages_ending w isLoggedIn blossomServers files)
    as [e _ Heq | responses urls _ _ Heq]; rewrite Heq; cbn [performed];
    apply Forall_app; split; try exact Hst; repeat constructor; auto.
  destruct (0 <? List.length urls)%nat; repeat constructor; auto.
Qed.

End RunEffects.

(** ** The handlers *)

Section Handlers.

Local Open Scope M_scope.

Import Reading Examples.

Lemma completion_order_0 (schedule : list nat) : completion_order 0 schedule = [].
Proof.
  unfold completion_order. cbn [seq]. rewrite app_nil_r.
  replace (filter (fun i => (i <? 0)%nat) schedule) with (@nil nat); [reflexivity | ].
  induction schedule as [ | i rest IH]; [reflexivity | exact IH].
Qed.

Lemma callback_arguments_app (es es' : list effect) :
  callback_arguments (es ++ es') = callback_arguments es ++ callback_arguments es'.
Proof. apply flat_map_app. Qed.

Lemma callback_arguments_map (urls : list value) :
  callback_arguments (map ImgCallbackOnUpload urls) = urls.
Proof.
  induction urls as [ | url rest IH]; [reflexivity | ].
  cbn [map callback_arguments flat_map app]. fold (callback_arguments (map ImgCallbackOnUpload rest)).
  rewrite IH. reflexivity.
Qed.

Lemma uploadImages_calls_no_callback (w : world) (isLoggedIn : bool)
    (blossomServers : option (list string)) (files : list File) :
  callback_arguments (performed (uploadImages w isLoggedIn blossomServers files)) = [].
Proof.
  assert (Hst : callback_arguments
                  (performed (stages w isLoggedIn blossomServers files)) = []).
  { pose proof (stages_effects
                  (fun e => match e with ImgCallbackOnUpload _ => False | _ => True end)
                  w isLoggedIn blossomServers files) as Hst.
    destruct Hst as [Hp _]; try (intros; exact I).
    induction Hp as [ | e rest He _ IH]; [reflexivity | ].
    cbn [callback_arguments flat_map]. fold (callback_arguments rest). rewrite IH.
    destruct e; try reflexivity. destruct He. }
  destruct (uploadImages_ending w isLoggedIn blossomServers files)
    as [e _ Heq | responses urls _ _ Heq]; rewrite Heq; cbn [performed];
    rewrite callback_arguments_app, Hst; [reflexivity | ].
  destruct (0 <? List.length urls)%nat; reflexivity.
Qed.

(** The [forEach] over the callback, in full. *)
Lemma for_each_callback (w : world) (urls : list value) :
  for_each (call_callback w) urls
  = mkM (map ImgCallbackOnUpload (handed_over w urls)) []
        (match first_throw w urls with
         | Some e => Throw e
         | None => Ok tt
         end).
Proof.
  induction urls as [ | url rest IH]; [reflexivity | ].
  cbn [for_each handed_over first_throw]. unfold bindM, call_callback at 1.
  cbn [outcome performed deferred].
  destruct (imgCallbackOnUpload w url) as [[] | e]; [ | reflexivity].
  rewrite IH. reflexivity.
Qed.

(** What [handleChange] does around a run that returned [urls]. *)
Lemma handleChange_shape (w : world) (isLoggedIn : bool)
    (blossomServers : option (list string)) (files : list File)
    (urls : list value) :
  outcome (uploadImages w isLoggedIn blossomServers files) = Ok urls ->
  Forall (fun url => url <> VNull) urls ->
  handleChange w isLoggedIn blossomServers (Some files)
  = mkM (SetLoading true
         :: performed (uploadImages w isLoggedIn blossomServers files)
         ++ map ImgCallbackOnUpload (handed_over w urls)
         ++ match first_throw w urls with
            | Some _ => []
            | None => [SetLoading false; ResetFileInput]
            end)
        (deferred (uploadImages w isLoggedIn blossomServers files))
        (match first_throw w urls with
         | Some e => Throw e
         | None => Ok tt
         end).
Proof.
  intros Hout Hnn. unfold handleChange.
  rewrite (bind_ok (uploadImages w isLoggedIn blossomServers files) _ urls Hout).
  unfold hand_over. rewrite (filter_not_null_id _ Hnn), for_each_callback.
  unfold bindM. cbn [tell outcome performed deferred app].
  destruct (first_throw w urls);
    cbn [tell outcome performed deferred app];
    rewrite ?app_nil_r, <- ?app_assoc; reflexivity.
Qed.

Lemma handleDrop_shape (w : world) (isLoggedIn : bool)
    (blossomServers : option (list string)) (file : File) (files : list File)
    (urls : list value) :
  outcome (uploadImages w isLoggedIn blossomServers (file :: files)) = Ok urls ->
  Forall (fun url => url <> VNull) urls ->
  handleDrop w isLoggedIn blossomServers (file :: files)
  = mkM (PreventDefault :: StopPropagation :: SetIsDragging false
         :: SetLoading true
         :: performed (uploadImages w isLoggedIn blossomServers (file :: files))
         ++ map ImgCallbackOnUpload (handed_over w urls)
         ++ match first_throw w urls with
            | Some _ => []
            | None => [SetLoading false]
            end)
        (deferred (uploadImages w isLoggedIn blossomServers (file :: files)))
        (match first_throw w urls with
         | Some e => Throw e
         | None => Ok tt
         end).
Proof.
  intros Hout Hnn. unfold handleDrop. cbn [List.length Nat.ltb Nat.leb].
  rewrite (bind_ok (uploadImages w isLoggedIn blossomServers (file :: files)) _ urls Hout).
  unfold hand_over. rewrite (filter_not_null_id _ Hnn), for_each_callback.
  unfold bindM. cbn [tell outcome performed deferred app].
  destruct (first_throw w urls);
    cbn [tell outcome performed deferred app];
    rewrite ?app_nil_r, <- ?app_assoc; reflexivity.
Qed.

Lemma handed_over_all (w : world) (urls : list value) :
  first_throw w urls = None -> handed_over w urls = urls.
Proof.
  induction urls as [ | url rest IH]; [reflexivity | ].
  cbn [first_throw handed_over].
  destruct (imgCallbackOnUpload w url); [ | discriminate].
  intros H. rewrite (IH H). reflexivity.
Qed.

Lemma first_throw_none (w : world) (urls : list value) :
  (forall url, In url urls -> imgCallbackOnUpload w url = Ok tt) ->
  first_throw w urls = None.
Proof.
  induction urls as [ | url rest IH]; intros Hreturns; [reflexivity | ].
  cbn [first_throw]. rewrite (Hreturns url (or_introl eq_refl)).
  apply IH. intros u Hu. apply Hreturns. right. exact Hu.
Qed.

Lemma callback_arguments_of_handler (before after : list effect) (urls : list value) :
  callback_arguments before = [] -> callback_arguments after = [] ->
  callback_arguments (before ++ map ImgCallbackOnUpload urls ++ after) = urls.
Proof.
  intros Hb Ha. rewrite !callback_arguments_app, Hb, Ha, callback_arguments_map.
  cbn. apply app_nil_r.
Qed.

(** For a selection that is not empty, both handlers call the parent's
    callback on the URLs the run returned, in the order of the returned
    list, starting with the first and stopping after the first call that
    throws: once for each URL when no call throws.  The [null] filter of
    the handlers never removes anything. *)
Theorem handlers_hand_over_returned_urls (w : world) (isLoggedIn : bool)
    (blossomServers : option (list string)) (file : File) (files : list File)
    (urls : list value) :
  outcome (uploadImages w isLoggedIn blossomServers (file :: files)) = Ok urls ->
  filter not_null urls = urls
  /\ callback_arguments
       (performed (handleChange w isLoggedIn blossomServers (Some (file :: files))))
     = handed_over w urls
  /\ callback_arguments
       (performed (handleDrop w isLoggedIn blossomServers (file :: files)))
     = handed_over w urls
  /\ ((forall url, In url urls -> imgCallbackOnUpload w url = Ok tt) ->
      handed_over w urls = urls).
Proof.
  intros Hout.
  destruct (uploadImages_never_rejects_aux w isLoggedIn blossomServers (file :: files))
    as [urls' [Hout' Hnn]].
  assert (urls' = urls) by congruence. subst urls'.
  split; [apply filter_not_null_id; exact Hnn | ].
  rewrite (handleChange_shape _ _ _ _ _ Hout Hnn),
    (handleDrop_shape _ _ _ _ _ _ Hout Hnn).
  cbn [performed].
  pose proof (uploadImages_calls_no_callback w isLoggedIn blossomServers (file :: files))
    as Hnone.
  split; [ | split].
  - change (SetLoading true :: ?l) with ([SetLoading true] ++ l).
    rewrite app_assoc. apply callback_arguments_of_handler.
    + rewrite callback_arguments_app, Hnone. reflexivity.
    + destruct (first_throw w urls); reflexivity.
  - change (PreventDefault :: StopPropagation :: SetIsDragging false
            :: SetLoading true :: ?l)
      with ([PreventDefault; StopPropagation; SetIsDragging false; SetLoading true]
            ++ l).
    rewrite app_assoc. apply callback_arguments_of_handler.
    + rewrite callback_arguments_app, Hnone. reflexivity.
    + destruct (first_throw w urls); reflexivity.
  - intros Hreturns. apply handed_over_all, first_throw_none. exact Hreturns.
Qed.

Lemma handlers_hand_over_returned_urls_witness :
  callback_arguments
    (performed (handleChange second_finishes_first true None
                  (Some [photo_a; photo_b])))
  = [VStr "https://x/a.jpg"; VStr "https://x/b.jpg"]
  /\ callback_arguments
       (performed (handleChange parent_throws_on_first true None
                     (Some [photo_a; photo_b])))
     = [VStr "https://x/a.jpg"].
Proof.
  split.
  - exact (proj1 (proj2 (handlers_hand_over_returned_urls second_finishes_first
                           true None photo_a [photo_b]
                           [VStr "https://x/a.jpg"; VStr "https://x/b.jpg"] eq_refl))).
  - exact (proj1 (proj2 (handlers_hand_over_returned_urls parent_throws_on_first
                           true None photo_a [photo_b]
                           [VStr "https://x/a.jpg"; VStr "https://x/b.jpg"] eq_refl))).
Defined.

(** The loading flag after a handler, for a selection that is not empty.
    When no call of the parent's callback throws, both handlers complete
    and leave [loading] false, [handleChange] ending with the reset of the
    file input.  When a call throws, there is nothing to catch it: the
    handler rejects with what was thrown, [setLoading(false)] and the
    reset of the file input are skipped, and [loading] stays true. *)
Theorem handlers_loading_after_run (w : world) (isLoggedIn : bool)
    (blossomServers : option (list string)) (file : File) (files : list File)
    (urls : list value) (s : ui) :
  outcome (uploadImages w isLoggedIn blossomServers (file :: files)) = Ok urls ->
  let change := handleChange w isLoggedIn blossomServers (Some (file :: files)) in
  let drop := handleDrop w isLoggedIn blossomServers (file :: files) in
  ((forall url, In url urls -> imgCallbackOnUpload w url = Ok tt) ->
   outcome change = Ok tt
   /\ loading (run s (performed change)) = false
   /\ (exists before, performed change = before ++ [SetLoading false; ResetFileInput])
   /\ outcome drop = Ok tt
   /\ loading (run s (performed drop)) = false)
  /\ (forall e, first_throw w urls = Some e ->
      outcome change = Throw e
      /\ loading (run s (performed change)) = true
      /\ ~ In ResetFileInput (performed change)
      /\ outcome drop = Throw e
      /\ loading (run s (performed drop)) = true).
Proof.
  intros Hout change drop. subst change drop.
  destruct (uploadImages_never_rejects_aux w isLoggedIn blossomServers (file :: files))
    as [urls' [Hout' Hnn]].
  assert (urls' = urls) by congruence. subst urls'.
  rewrite (handleChange_shape _ _ _ _ _ Hout Hnn),
    (handleDrop_shape _ _ _ _ _ _ Hout Hnn).
  cbn [performed outcome].
  assert (Hloading : forall st es, Forall (fun e => forall b, e <> SetLoading b) es ->
                                   loading (run st es) = loading st).
  { intros st es Hes. revert st. induction Hes as [ | e rest He _ IH]; intros st;
      [reflexivity | ].
    cbn [run fold_left]. fold (run (step st e) rest). rewrite IH.
    destruct e; try reflexivity. exfalso. apply (He b). reflexivity. }
  assert (Hquiet : Forall (fun e => forall b, e <> SetLoading b)
                     (performed (uploadImages w isLoggedIn blossomServers (file :: files))
                      ++ map ImgCallbackOnUpload (handed_over w urls))).
  { apply Forall_app. split.
    - apply run_effects_aux; try (intros; discriminate).
      apply (stages_effects (fun e => forall b, e <> SetLoading b));
        intros; discriminate.
    - apply Forall_map_effect. intros; discriminate. }
  split.
  - intros Hreturns.
    assert (Hnone : first_throw w urls = None)
      by (apply first_throw_none; exact Hreturns).
    rewrite Hnone.
    split; [reflexivity | ]. split.
    { rewrite app_comm_cons, app_assoc, run_app. reflexivity. }
    split.
    { eexists. rewrite app_comm_cons, app_assoc. reflexivity. }
    split; [reflexivity | ].
    rewrite !app_comm_cons, app_assoc, run_app. reflexivity.
  - intros e He. rewrite He, !app_nil_r.
    split; [reflexivity | ]. split.
    { cbn [run fold_left]. fold (run (step s (SetLoading true))
                                   (performed (uploadImages w isLoggedIn blossomServers
                                                 (file :: files))
                                    ++ map ImgCallbackOnUpload (handed_over w urls))).
      rewrite (Hloading _ _ Hquiet). reflexivity. }
    split.
    { intros [Hin | Hin]; [discriminate | ].
      assert (Hno : Forall (fun e => e <> ResetFileInput)
                      (performed (uploadImages w isLoggedIn blossomServers (file :: files))
                       ++ map ImgCallbackOnUpload (handed_over w urls))).
      { apply Forall_app. split.
        - apply run_effects_aux; try (intros; discriminate).
          apply (stages_effects (fun e => e <> ResetFileInput)); intros; discriminate.
        - apply Forall_map_effect. intros; discriminate. }
      rewrite Forall_forall in Hno. apply (Hno _ Hin). reflexivity. }
    split; [reflexivity | ].
    cbn [run fold_left].
    fold (run (step (step (step (step s PreventDefault) StopPropagation)
                       (SetIsDragging false)) (SetLoading true))
            (performed (uploadImages w isLoggedIn blossomServers (file :: files))
             ++ map ImgCallbackOnUpload (handed_over w urls))).
    rewrite (Hloading _ _ Hquiet). reflexivity.
Qed.

Lemma handlers_loading_after_run_witness :
  loading
    (run initial_ui
       (performed (handleChange second_finishes_first true None
                     (Some [photo_a; photo_b]))))
  = false
  /\ loading
       (run initial_ui
          (performed (handleChange parent_throws_on_first true None
                        (Some [photo_a; photo_b]))))
     = true.
Proof.
  split.
  - refine (proj1 (proj2 (proj1 (handlers_loading_after_run second_finishes_first
                                   true None photo_a [photo_b]
                                   [VStr "https://x/a.jpg"; VStr "https://x/b.jpg"]
                                   initial_ui eq_refl) _))).
    intros url _. reflexivity.
  - exact (proj1 (proj2 (proj2 (handlers_loading_after_run parent_throws_on_first
                                  true None photo_a [photo_b]
                                  [VStr "https://x/a.jpg"; VStr "https://x/b.jpg"]
                                  initial_ui eq_refl)
                           (ErrorObj "parent failed") eq_refl))).
Defined.

(** An empty selection.  On an empty drop [handleDrop] only cancels the
    event and clears the dragging flag: it sets no loading flag and does
    not run [uploadImages].  [handleChange] does not test the length: it
    runs [uploadImages] on the empty list, which passes validation, strips
    and uploads nothing, and ends with the failure text about the media
    server, logged in or not. *)
Theorem empty_selection (w : world) (isLoggedIn : bool)
    (blossomServers : option (list string)) :
  handleDrop w isLoggedIn blossomServers []
  = mkM [PreventDefault; StopPropagation; SetIsDragging false] [] (Ok tt)
  /\ uploadImages w isLoggedIn blossomServers []
     = mkM [SetProgress (Some 0%Z); SetPreviews []; SetTimeout 500;
            SetFailureText no_url_message; SetShowFailureModal true]
           [SetProgress None] (Ok [])
  /\ handleChange w isLoggedIn blossomServers (Some [])
     = mkM [SetLoading true; SetProgress (Some 0%Z); SetPreviews []; SetTimeout 500;
            SetFailureText no_url_message; SetShowFailureModal true;
            SetLoading false; ResetFileInput]
           [SetProgress None] (Ok tt).
Proof.
  assert (Hstages : forall l, stages w l blossomServers []
                              = mkM [SetProgress (Some 0%Z); SetPreviews []] [] (Ok [])).
  { intros [ | ].
    - rewrite (stages_clean w blossomServers [] [] [] [] eq_refl eq_refl eq_refl eq_refl).
      cbn [List.length map app]. rewrite !completion_order_0. reflexivity.
    - rewrite (stages_clean_logged_out w blossomServers [] [] [] eq_refl eq_refl eq_refl).
      cbn [List.length map app]. rewrite !completion_order_0. reflexivity. }
  assert (Hrun : uploadImages w isLoggedIn blossomServers []
                 = mkM [SetProgress (Some 0%Z); SetPreviews []; SetTimeout 500;
                        SetFailureText no_url_message; SetShowFailureModal true]
                       [SetProgress None] (Ok [])).
  { unfold uploadImages, try_block. rewrite Hstages. reflexivity. }
  split; [reflexivity | ]. split; [exact Hrun | ].
  unfold handleChange. rewrite Hrun. reflexivity.
Qed.

End Handlers.

(** ** Progress *)

Section ProgressInvariants.

Local Open Scope M_scope.

Import Reading Examples.












Lemma deferred_bind (Q : effect -> Prop) {A B} (m : M A) (k : A -> M B) :
  Forall Q (deferred m) ->
  (forall a, Forall Q (deferred (k a))) ->
  Forall Q (deferred (bindM m k)).
Proof.
  intros Hm Hk. unfold bindM. destruct (outcome m) as [a | e]; cbn [deferred].
  - apply Forall_app. split; [exact Hm | apply Hk].
  - exact Hm.
Qed.

Lemma stages_deferred (w : world) (isLoggedIn : bool)
    (blossomServers : option (list string)) (files : list File) :
  Forall is_progress (deferred (stages w isLoggedIn blossomServers files)).
Proof.
  unfold stages.
  apply deferred_bind; [constructor | intros _].
  apply deferred_bind; [constructor | intros _].
  apply deferred_bind; [constructor | intros _].
  apply deferred_bind;
    [apply (promise_all_effects _ _ is_progress); intros; constructor | intros ?].
  apply deferred_bind; [constructor | intros _].
  apply deferred_bind; [constructor | intros _].
  apply deferred_bind;
    [apply (promise_all_effects _ _ is_progress); intros; repeat constructor
    | intros strippedImageFiles].
  destruct isLoggedIn; [ | constructor].
  apply deferred_bind; [constructor | intros _].
  apply (promise_all_effects _ _ is_progress); intros; repeat constructor.
Qed.

(** Once it has returned, a run only ever touches the progress: what it
    leaves for later holds no upload, no call of the parent's callback, no
    failure text and no change of the previews. *)
Theorem late_effects_only_set_progress (w : world) (isLoggedIn : bool)
    (blossomServers : option (list string)) (files : list File) :
  Forall is_progress (deferred (uploadImages w isLoggedIn blossomServers files)).
Proof.
  pose proof (stages_deferred w isLoggedIn blossomServers files) as Hst.
  destruct (uploadImages_ending w isLoggedIn blossomServers files)
    as [e _ Heq | responses urls _ _ Heq]; rewrite Heq; cbn [deferred];
    apply Forall_app; split; try exact Hst; repeat constructor.
Qed.

Lemma stages_resolved_deferred (w : world) (isLoggedIn : bool)
    (blossomServers : option (list string)) (files : list File)
    (responses : list value) :
  outcome (stages w isLoggedIn blossomServers files) = Ok responses ->
  deferred (stages w isLoggedIn blossomServers files) = [].
Proof.
  intros Hok.
  destruct (stages_resolved_inv _ _ _ _ _ Hok)
    as [Hvalid [previewsList [stripped [Hpreviews [Hstripped Hresponses]]]]].
  destruct isLoggedIn.
  - rewrite (stages_clean _ _ _ _ _ _ Hvalid Hpreviews Hstripped Hresponses).
    reflexivity.
  - rewrite (stages_clean_logged_out _ _ _ _ _ Hvalid Hpreviews Hstripped).
    reflexivity.
Qed.

(** When no item fails, the only thing a run leaves for later is the
    timer that clears the progress: once it has fired the progress is
    [null], whether URLs came out or not. *)
Theorem clean_run_clears_progress (w : world) (isLoggedIn : bool)
    (blossomServers : option (list string)) (files : list File)
    (responses : list value) (s : ui) :
  outcome (stages w isLoggedIn blossomServers files) = Ok responses ->
  let r := uploadImages w isLoggedIn blossomServers files in
  In (SetTimeout 500) (performed r)
  /\ deferred r = [SetProgress None]
  /\ progress (run s (performed r ++ deferred r)) = None.
Proof.
  intros Hok r. subst r.
  destruct (uploadImages_ending w isLoggedIn blossomServers files)
    as [e Hthrow _ | responses' urls _ _ Heq]; [congruence | ].
  rewrite Heq. cbn [performed deferred].
  rewrite (stages_resolved_deferred _ _ _ _ _ Hok). cbn [app].
  split; [apply in_or_app; right; left; reflexivity | ].
  split; [reflexivity | ].
  rewrite run_app. reflexivity.
Qed.

Lemma clean_run_clears_progress_witness :
  deferred (uploadImages second_finishes_first true None [photo_a; photo_b])
  = [SetProgress None]
  /\ progress
       (run initial_ui
          (performed (uploadImages second_finishes_first true None [photo_a; photo_b])
           ++ deferred (uploadImages second_finishes_first true None [photo_a; photo_b])))
     = None.
Proof.
  destruct (clean_run_clears_progress second_finishes_first true None
              [photo_a; photo_b]
              [url_tags "https://x/a.jpg"; url_tags "https://x/b.jpg"] initial_ui)
    as [_ [Hd Hp]].
  - reflexivity.
  - split; [exact Hd | exact Hp].
Defined.

End ProgressInvariants.

Section ProgressOrder.

Local Open Scope M_scope.

Import Reading Examples.

Lemma progress_updates_app (es es' : list effect) :
  progress_updates (es ++ es') = progress_updates es ++ progress_updates es'.
Proof. apply flat_map_app. Qed.

Lemma progress_updates_map {A} (f : A -> effect) (xs : list A) :
  (forall x, ~ is_progress (f x)) -> progress_updates (map f xs) = [].
Proof.
  intros Hf. induction xs as [ | x rest IH]; [reflexivity | ].
  cbn [map progress_updates flat_map]. fold (progress_updates (map f rest)).
  rewrite IH. specialize (Hf x). destruct (f x); try reflexivity.
  exfalso. apply Hf. exact I.
Qed.


Lemma progress_updates_done (report : nat -> Z) (order : list nat) :
  progress_updates (flat_map (fun i => [SetProgress (Some (report i))]) order)
  = map (fun i => Some (report i)) order.
Proof.
  induction order as [ | i rest IH]; [reflexivity | ].
  cbn [flat_map map app progress_updates].
  fold (progress_updates (flat_map (fun i => [SetProgress (Some (report i))]) rest)).
  rewrite IH. reflexivity.
Qed.


(** The trace of a logged-in run in which no item fails. *)
Lemma clean_run_performed (w : world) (blossomServers : option (list string))
    (files : list File) (previewsList : list Preview.preview)
    (strippedImageFiles : list File) (responses : list value) :
  validate files = Ok tt ->
  preview_outcomes w files = map Ok previewsList ->
  strip_outcomes w files = map Ok strippedImageFiles ->
  upload_outcomes w blossomServers strippedImageFiles = map Ok responses ->
  exists tail,
    performed (uploadImages w true blossomServers files)
    = (SetProgress (Some 0%Z)
       :: map GetBase64 files
       ++ SetPreviews previewsList
       :: map StripImageMetadata files
       ++ flat_map (strip_done (List.length files))
            (completion_order (List.length files) (strip_order w))
       ++ map (fun f => BlossomUploadImages f (endpoints blossomServers))
            strippedImageFiles
       ++ flat_map (upload_done (List.length files))
            (completion_order (List.length files) (upload_order w)))
      ++ SetTimeout 500 :: tail
    /\ progress_updates tail = [] /\ progress_values tail = [].
Proof.
  intros Hvalid Hpreviews Hstripped Hresponses.
  pose proof (stages_clean w blossomServers files previewsList strippedImageFiles
                responses Hvalid Hpreviews Hstripped Hresponses) as Hstages.
  destruct (uploadImages_ending w true blossomServers files)
    as [e Hthrow _ | responses' urls _ _ Heq].
  - rewrite Hstages in Hthrow. discriminate.
  - rewrite Heq, Hstages. cbn [performed]. eexists. split; [reflexivity | ].
    destruct (0 <? List.length urls)%nat; split; reflexivity.
Qed.

Lemma agree_below_140 : Doubles.agree_below 140 = true.
Proof. vm_cast_no_check (@eq_refl bool true). Qed.

Lemma agree_below_sound (bound total idx : nat) :
  Doubles.agree_below bound = true ->
  total < bound -> idx < total ->
  Pipeline.strip_progress total idx = Doubles.strip_progress total idx
  /\ Pipeline.upload_progress total idx = Doubles.upload_progress total idx.
Proof.
  intros Hall Htotal Hidx.
  unfold Doubles.agree_below in Hall. rewrite forallb_forall in Hall.
  assert (Hin : In total (seq 0 bound)) by (apply in_seq; lia).
  specialize (Hall total Hin). unfold Doubles.agrees in Hall.
  rewrite forallb_forall in Hall.
  assert (Hin' : In idx (seq 0 total)) by (apply in_seq; lia).
  specialize (Hall idx Hin'). apply andb_true_iff in Hall.
  destruct Hall as [Hs Hu]. apply Z.eqb_eq in Hs, Hu. split; assumption.
Qed.

(** The model's exact rounding and the source's double-precision rounding
    give the same progress values for every batch of fewer than 140
    files. *)
Lemma rounding_agrees_below_140 (total idx : nat) :
  total < 140 -> idx < total ->
  Pipeline.strip_progress total idx = Doubles.strip_progress total idx
  /\ Pipeline.upload_progress total idx = Doubles.upload_progress total idx.
Proof. exact (agree_below_sound 140 total idx agree_below_140). Qed.

(** At 140 files they part: the 47th file's upload value is 53 in double
    precision, where [(47 / 140) * 70] falls just below 23.5, and 54 with
    exact rounding. *)
Example rounding_differs_at_140_files :
  Doubles.upload_progress 140 46 = 53%Z /\ Pipeline.upload_progress 140 46 = 54%Z.
Proof. split; vm_compute; reflexivity. Qed.

Lemma progress_updates_of_clean_run (w : world)
    (blossomServers : option (list string)) (files : list File)
    (previewsList : list Preview.preview) (strippedImageFiles : list File)
    (responses : list value) :
  validate files = Ok tt ->
  preview_outcomes w files = map Ok previewsList ->
  strip_outcomes w files = map Ok strippedImageFiles ->
  upload_outcomes w blossomServers strippedImageFiles = map Ok responses ->
  progress_updates (performed (uploadImages w true blossomServers files))
  = Some 0%Z
    :: map (fun i => Some (Pipeline.strip_progress (List.length files) i))
         (completion_order (List.length files) (strip_order w))
    ++ map (fun i => Some (Pipeline.upload_progress (List.length files) i))
         (completion_order (List.length files) (upload_order w)).
Proof.
  intros Hvalid Hpreviews Hstripped Hresponses.
  destruct (clean_run_performed w blossomServers files previewsList
              strippedImageFiles responses Hvalid Hpreviews Hstripped Hresponses)
    as [tail [Heq [Htail _]]].
  rewrite Heq. rewrite progress_updates_app.
  cbn [progress_updates flat_map app].
  fold (progress_updates tail). rewrite Htail, app_nil_r.
  match goal with
  | |- context [flat_map ?f (?a ++ ?b)] => change (flat_map f (a ++ b)) with (progress_updates (a ++ b))
  end.
  rewrite progress_updates_app, progress_updates_map by (intros ? []).
  cbn [app progress_updates flat_map].
  match goal with
  | |- context [flat_map ?f (?a ++ ?b)] => change (flat_map f (a ++ b)) with (progress_updates (a ++ b))
  end.
  rewrite !progress_updates_app, !progress_updates_map by (intros ? []).
  unfold strip_done, upload_done. rewrite !progress_updates_done.
  reflexivity.
Qed.

(** In a logged-in run of fewer than 140 files in which no item fails, the
    progress is set to 0 and then, for each file in the order in which the
    files finish a stage, to the value the source computes in double
    precision from that file's position in the batch: the updates of a
    stage are the same values whatever the completion order, rearranged
    by it. *)
Theorem progress_follows_completion_order (w : world)
    (blossomServers : option (list string)) (files : list File)
    (previewsList : list Preview.preview) (strippedImageFiles : list File)
    (responses : list value) :
  List.length files < 140 ->
  validate files = Ok tt ->
  preview_outcomes w files = map Ok previewsList ->
  strip_outcomes w files = map Ok strippedImageFiles ->
  upload_outcomes w blossomServers strippedImageFiles = map Ok responses ->
  progress_updates (performed (uploadImages w true blossomServers files))
  = Some 0%Z
    :: map (fun i => Some (Doubles.strip_progress (List.length files) i))
         (completion_order (List.length files) (strip_order w))
    ++ map (fun i => Some (Doubles.upload_progress (List.length files) i))
         (completion_order (List.length files) (upload_order w)).
Proof.
  intros Hsmall Hvalid Hpreviews Hstripped Hresponses.
  rewrite (progress_updates_of_clean_run w blossomServers files previewsList
             strippedImageFiles responses Hvalid Hpreviews Hstripped Hresponses).
  f_equal. f_equal; apply map_ext_in; intros i Hi;
    apply completion_order_in_range in Hi;
    destruct (rounding_agrees_below_140 (List.length files) i Hsmall Hi) as [Hs Hu];
    congruence.
Qed.

Lemma progress_follows_completion_order_witness :
  progress_updates
    (performed (uploadImages second_finishes_first true None [photo_a; photo_b]))
  = Some 0%Z
    :: map (fun i => Some (Doubles.strip_progress 2 i)) (completion_order 2 [1; 0])
    ++ map (fun i => Some (Doubles.upload_progress 2 i)) (completion_order 2 [1; 0]).
Proof.
  apply (progress_follows_completion_order second_finishes_first None
           [photo_a; photo_b]
           [Preview.mk "data:image/jpeg;base64," "a.jpg" 2048;
            Preview.mk "data:image/jpeg;base64," "b.jpg" 2048]
           [stripped photo_a; stripped photo_b]
           [url_tags "https://x/a.jpg"; url_tags "https://x/b.jpg"]);
    try reflexivity.
  cbn. lia.
Defined.

End ProgressOrder.

Section ProgressInOrder.

Import Reading Examples.


Lemma nondecreasing_tail (x : Z) (l : list Z) :
  nondecreasing (x :: l) -> nondecreasing l.
Proof. destruct l as [ | y rest]; [intros; exact I | intros [_ H]; exact H]. Qed.





End ProgressInOrder.

(** ** The calls a run makes *)

Section Calls.

Local Open Scope M_scope.

Import Reading Examples.

Variable w : world.
Variable isLoggedIn : bool.
Variable blossomServers : option (list string).
Variable files : list File.

(** The stage effects, each under what is known when it happens. *)
Lemma stages_calls (P : effect -> Prop) :
  (forall p, P (SetProgress (Some p))) ->
  (validate files = Ok tt -> forall f, In f files -> P (GetBase64 f)) ->
  (validate files = Ok tt ->
   forall ps, preview_outcomes w files = map Ok ps -> P (SetPreviews ps)) ->
  (validate files = Ok tt -> forall f, In f files -> P (StripImageMetadata f)) ->
  (isLoggedIn = true -> validate files = Ok tt ->
   forall ps stripped,
     preview_outcomes w files = map Ok ps ->
     strip_outcomes w files = map Ok stripped ->
     forall f, In f stripped -> P (BlossomUploadImages f (endpoints blossomServers))) ->
  effects_satisfy P (stages w isLoggedIn blossomServers files).
Proof.
  intros Hprogress Hread Hpreviews Hstrip Hupload. unfold stages.
  apply effects_bind; [apply effects_lift | intros [] Hvalid].
  cbn [lift outcome] in Hvalid.
  apply effects_bind; [apply effects_tell; repeat constructor; apply Hprogress | intros _ _].
  apply effects_bind.
  { apply effects_tell. apply Forall_forall. intros e He. apply in_map_iff in He.
    destruct He as [f [<- Hf]]. apply (Hread Hvalid f Hf). }
  intros _ _.
  apply effects_bind; [apply promise_all_effects; intros; constructor | ].
  intros previewsList Hps. apply promise_all_resolved in Hps.
  apply effects_bind;
    [apply effects_tell; repeat constructor; apply (Hpreviews Hvalid _ Hps) | intros _ _].
  apply effects_bind.
  { apply effects_tell. apply Forall_forall. intros e He. apply in_map_iff in He.
    destruct He as [f [<- Hf]]. apply (Hstrip Hvalid f Hf). }
  intros _ _.
  apply effects_bind;
    [apply promise_all_effects; intros; repeat constructor; apply Hprogress | ].
  intros strippedImageFiles Hst. apply promise_all_resolved in Hst.
  destruct isLoggedIn; [ | apply effects_ret].
  apply effects_bind.
  { apply effects_tell. apply Forall_forall. intros e He. apply in_map_iff in He.
    destruct He as [f [<- Hf]].
    apply (Hupload eq_refl Hvalid _ _ Hps Hst f Hf). }
  intros _ _.
  apply promise_all_effects; intros; repeat constructor; apply Hprogress.
Qed.

Lemma run_effects (P : effect -> Prop) :
  Forall P (performed (stages w isLoggedIn blossomServers files)) ->
  P (SetProgress None) ->
  (forall t, P (SetFailureText t)) ->
  P (SetShowFailureModal true) ->
  P (SetTimeout 500) ->
  Forall P (performed (uploadImages w isLoggedIn blossomServers files)).
Proof.
  intros Hst Hnull Htext Hmodal Htimer.
  destruct (uploadImages_ending w isLoggedIn blossomServers files)
    as [e _ Heq | responses urls _ _ Heq]; rewrite Heq; cbn [performed];
    apply Forall_app; split; try exact Hst; repeat constructor; auto.
  destruct (0 <? List.length urls)%nat; repeat constructor; auto.
Qed.

Lemma validate_ok (f : File) :
  validate files = Ok tt -> In f files ->
  In (type f) ALLOWED_TYPES /\ (size f <= MAX_FILE_SIZE)%Z.
Proof.
  intros Hvalid Hin.
  destruct (in_dec string_dec (type f) ALLOWED_TYPES) as [Hallowed | Hout].
  - split; [exact Hallowed | ].
    destruct (Z_le_gt_dec (size f) MAX_FILE_SIZE) as [Hle | Hgt]; [exact Hle | ].
    exfalso.
    assert (Hoff : exists g, In g files /\ offending g)
      by (exists f; split; [exact Hin | right; lia]).
    apply validate_throws_iff in Hoff. destruct Hoff as [msg [Hthrow _]]. congruence.
  - exfalso.
    assert (Hoff : exists g, In g files /\ offending g)
      by (exists f; split; [exact Hin | left; exact Hout]).
    apply validate_throws_iff in Hoff. destruct Hoff as [msg [Hthrow _]]. congruence.
Qed.

Lemma stripped_type_kept (c : canvas) (imageFile out : File) :
  In (type imageFile) ALLOWED_TYPES ->
  stripImageMetadata c imageFile = Ok out ->
  type out = type imageFile.
Proof.
  intros Hallowed. unfold stripImageMetadata.
  destruct (loads c); [ | discriminate].
  destruct (has_context c); [ | discriminate].
  destruct (blob c) as [b | ]; [ | discriminate].
  intros H. injection H as <-. cbn [new_File type].
  destruct Hallowed as [<- | [<- | [<- | []]]]; reflexivity.
Qed.

(** The policy invariant: a run reads and strips only files of the batch,
    and only after the whole batch has passed validation, so every file
    that reaches [getBase64] or [stripImageMetadata] has an accepted type
    and at most 5,242,880 bytes. *)
Theorem only_validated_files_are_processed (f : File) :
  In (GetBase64 f) (performed (uploadImages w isLoggedIn blossomServers files))
  \/ In (StripImageMetadata f)
        (performed (uploadImages w isLoggedIn blossomServers files)) ->
  validate files = Ok tt
  /\ In f files
  /\ In (type f) ["image/jpeg"; "image/png"; "image/webp"]
  /\ (size f <= 5242880)%Z.
Proof.
  pose (P := fun e =>
               match e with
               | GetBase64 g | StripImageMetadata g =>
                   validate files = Ok tt /\ In g files
                   /\ In (type g) ALLOWED_TYPES /\ (size g <= MAX_FILE_SIZE)%Z
               | _ => True
               end).
  assert (Hall : Forall P (performed (uploadImages w isLoggedIn blossomServers files))).
  { apply run_effects; try exact I; [ | intros; exact I].
    apply (stages_calls P); cbn; try (intros; exact I);
      intros Hvalid g Hg; destruct (validate_ok g Hvalid Hg); auto. }
  rewrite Forall_forall in Hall.
  intros [Hin | Hin]; exact (Hall _ Hin).
Qed.

(** Every file handed to the upload collaborator is the output of
    [stripImageMetadata] for a file of the batch, never an original: it
    has the original's name and accepted type, and a new content. *)
Theorem uploaded_files_are_stripped_copies (f : File) (servers : list string) :
  In (BlossomUploadImages f servers)
     (performed (uploadImages w isLoggedIn blossomServers files)) ->
  exists i original,
    nth_error files i = Some original
    /\ stripImageMetadata (canvas_of w i original) original = Ok f
    /\ name f = name original
    /\ type f = type original
    /\ In (type f) ["image/jpeg"; "image/png"; "image/webp"]
    /\ exists content, blob (canvas_of w i original) = Some content /\ bytes f = content.
Proof.
  pose (P := fun e =>
               match e with
               | BlossomUploadImages g _ =>
                   exists i original,
                     nth_error files i = Some original
                     /\ stripImageMetadata (canvas_of w i original) original = Ok g
                     /\ name g = name original
                     /\ type g = type original
                     /\ In (type g) ALLOWED_TYPES
                     /\ exists content,
                          blob (canvas_of w i original) = Some content
                          /\ bytes g = content
               | _ => True
               end).
  assert (Hall : Forall P (performed (uploadImages w isLoggedIn blossomServers files))).
  { apply run_effects; try exact I; [ | intros; exact I].
    apply (stages_calls P); cbn; try (intros; exact I).
    intros _ Hvalid ps stripped _ Hstripped g Hg.
    assert (Hin : In (Ok g) (strip_outcomes w files))
      by (rewrite Hstripped; apply in_map; exact Hg).
    apply mapi_In in Hin. destruct Hin as [i [original [Hnth Hstrip]]].
    exists i, original. split; [exact Hnth | ]. split; [exact Hstrip | ].
    destruct (validate_ok original Hvalid (nth_error_In _ _ Hnth)) as [Hallowed _].
    pose proof (stripped_type_kept _ _ _ Hallowed Hstrip) as Htype.
    unfold stripImageMetadata in Hstrip.
    destruct (loads _); [ | discriminate].
    destruct (has_context _); [ | discriminate].
    destruct (blob _) as [content | ]; [ | discriminate].
    injection Hstrip as <-.
    split; [reflexivity | ]. split; [exact Htype | ].
    split; [rewrite Htype; exact Hallowed | ].
    exists content. split; reflexivity. }
  rewrite Forall_forall in Hall. intros Hin. exact (Hall _ Hin).
Qed.

End Calls.

Section CallsWitnesses.

Import Examples.

Lemma only_validated_files_are_processed_witness :
  validate [photo_a; photo_b] = Ok tt
  /\ In photo_b [photo_a; photo_b]
  /\ In (type photo_b) ["image/jpeg"; "image/png"; "image/webp"]
  /\ (size photo_b <= 5242880)%Z.
Proof.
  apply (only_validated_files_are_processed first_strip_fails true None
           [photo_a; photo_b] photo_b).
  right. cbn. do 5 right. left. reflexivity.
Defined.

Lemma uploaded_files_are_stripped_copies_witness :
  exists i original,
    nth_error [photo_a; photo_b] i = Some original
    /\ stripImageMetadata (canvas_of first_upload_fails i original) original
       = Ok (stripped photo_b)
    /\ name (stripped photo_b) = name original
    /\ type (stripped photo_b) = type original
    /\ In (type (stripped photo_b)) ["image/jpeg"; "image/png"; "image/webp"]
    /\ exists content,
         blob (canvas_of first_upload_fails i original) = Some content
         /\ bytes (stripped photo_b) = content.
Proof.
  apply (uploaded_files_are_stripped_copies first_upload_fails true None
           [photo_a; photo_b] (stripped photo_b) ["https://cdn.nostrcheck.me"]).
  cbn. do 9 right. left. reflexivity.
Defined.

End CallsWitnesses.

Section Barrier.

Local Open Scope M_scope.

Import Reading Examples.

Variable w : world.
Variable blossomServers : option (list string).
Variable files : list File.

Lemma all_or_rejection {A} (outcomes : list (res A)) :
  (exists values, outcomes = map Ok values) \/ (exists e, In (Throw e) outcomes).
Proof.
  induction outcomes as [ | o rest IH].
  - left. exists []. reflexivity.
  - destruct o as [v | e]; [ | right; exists e; left; reflexivity].
    destruct IH as [[values ->] | [e He]].
    + left. exists (v :: values). reflexivity.
    + right. exists e. right. exact He.
Qed.

Lemma map_Ok_no_rejection {A} (values : list A) (e : thrown) :
  ~ In (Throw e) (map Ok values).
Proof.
  intros Hin. apply in_map_iff in Hin. destruct Hin as [v [Hv _]]. discriminate.
Qed.

Lemma upload_calls_of_run (isLoggedIn : bool) :
  upload_calls (performed (uploadImages w isLoggedIn blossomServers files))
  = upload_calls (performed (stages w isLoggedIn blossomServers files)).
Proof.
  destruct (uploadImages_ending w isLoggedIn blossomServers files)
    as [e _ Heq | responses urls _ _ Heq]; rewrite Heq; cbn [performed];
    rewrite upload_calls_app; [apply app_nil_r | ].
  destruct (0 <? List.length urls)%nat; apply app_nil_r.
Qed.

Lemma upload_calls_map (stripped : list File) (servers : list string) :
  upload_calls (map (fun f => BlossomUploadImages f servers) stripped)
  = map (fun f => (f, servers)) stripped.
Proof.
  induction stripped as [ | f rest IH]; [reflexivity | ].
  cbn [map upload_calls flat_map app].
  fold (upload_calls (map (fun f => BlossomUploadImages f servers) rest)).
  rewrite IH. reflexivity.
Qed.

Lemma stages_reached_upload (previewsList : list Preview.preview)
    (strippedImageFiles : list File) :
  validate files = Ok tt ->
  preview_outcomes w files = map Ok previewsList ->
  strip_outcomes w files = map Ok strippedImageFiles ->
  upload_calls (performed (stages w true blossomServers files))
  = map (fun f => (f, endpoints blossomServers)) strippedImageFiles.
Proof.
  intros Hvalid Hpreviews Hstripped.
  unfold stages. rewrite Hvalid, Hpreviews, Hstripped.
  rewrite !promise_all_clean.
  rewrite (bind_ok (lift (Ok tt)) _ tt eq_refl).
  rewrite (bind_ok (tell [SetProgress (Some 0%Z)]) _ tt eq_refl).
  rewrite (bind_ok (tell (map GetBase64 files)) _ tt eq_refl).
  rewrite (bind_ok (mkM _ [] (Ok previewsList)) _ previewsList eq_refl).
  rewrite (bind_ok (tell [SetPreviews previewsList]) _ tt eq_refl).
  rewrite (bind_ok (tell (map StripImageMetadata files)) _ tt eq_refl).
  rewrite (bind_ok (mkM _ [] (Ok strippedImageFiles)) _ strippedImageFiles eq_refl).
  rewrite (bind_ok (tell (map _ strippedImageFiles)) _ tt eq_refl).
  cbn [lift tell performed app].
  assert (Hskip : forall e l, ~ is_upload_call e ->
                            upload_calls (e :: l) = upload_calls l).
  { intros e l He. cbn [upload_calls flat_map]. fold (upload_calls l).
    destruct e; try reflexivity. exfalso. apply He. exact I. }
  assert (Hdone : forall (f : nat -> list effect) order,
            (forall i, Forall (fun e => ~ is_upload_call e) (f i)) ->
            upload_calls (flat_map f order) = []).
  { intros f order Hf. apply no_upload_calls. apply Forall_forall.
    intros e He. apply in_flat_map in He. destruct He as [i [_ Hi]].
    specialize (Hf i). rewrite Forall_forall in Hf. apply (Hf _ Hi). }
  rewrite Hskip by (intros []).
  rewrite upload_calls_app, (no_upload_calls (map GetBase64 files))
    by (apply Forall_map_effect; intros ? []).
  rewrite upload_calls_app, Hdone by (intros; constructor).
  rewrite Hskip by (intros []).
  rewrite upload_calls_app, (no_upload_calls (map StripImageMetadata files))
    by (apply Forall_map_effect; intros ? []).
  rewrite upload_calls_app, Hdone by (intros; repeat constructor; intros []).
  rewrite upload_calls_app, upload_calls_map.
  rewrite (no_upload_calls (performed (promise_all _ _ _))).
  2:{ apply (promise_all_effects _ _ (fun e => ~ is_upload_call e)).
      intros i. repeat constructor. intros []. }
  cbn. apply app_nil_r.
Qed.

(** The barrier between the stages: the upload collaborator is called
    either for no file at all, or, once every file of a valid batch of a
    logged-in user has been read and stripped, once for each stripped file
    in the order of submission, whether or not the uploads then succeed. *)
Theorem uploads_start_together_or_not_at_all (isLoggedIn : bool) :
  upload_calls (performed (uploadImages w isLoggedIn blossomServers files)) = []
  \/ (isLoggedIn = true
      /\ validate files = Ok tt
      /\ exists strippedImageFiles,
           strip_outcomes w files = map Ok strippedImageFiles
           /\ List.length strippedImageFiles = List.length files
           /\ upload_calls (performed (uploadImages w isLoggedIn blossomServers files))
              = map (fun f => (f, endpoints blossomServers)) strippedImageFiles).
Proof.
  rewrite upload_calls_of_run.
  assert (Hnone : forall (blocked : Prop),
            (validate files = Ok tt ->
             forall ps stripped,
               preview_outcomes w files = map Ok ps ->
               strip_outcomes w files = map Ok stripped -> isLoggedIn = true -> blocked) ->
            (blocked -> False) ->
            upload_calls (performed (stages w isLoggedIn blossomServers files)) = []).
  { intros blocked Hreach Hblocked. apply no_upload_calls.
    apply (stages_calls w isLoggedIn blossomServers files
             (fun e => ~ is_upload_call e)); cbn; try tauto.
    intros Hl Hv ps stripped Hps Hst f _ _.
    apply Hblocked. apply (Hreach Hv ps stripped Hps Hst Hl). }
  destruct isLoggedIn.
  2:{ left. apply (Hnone False); [intros; discriminate | tauto]. }
  destruct (validate_cases files) as [Hvalid | Hinvalid].
  2:{ left. apply (Hnone False); [ | tauto].
      intros Hv. destruct Hinvalid; congruence. }
  destruct (all_or_rejection (preview_outcomes w files)) as [[ps Hps] | [e He]].
  2:{ left. apply (Hnone False); [ | tauto].
      intros _ ps' _ Hps' _ _. rewrite Hps' in He.
      apply (map_Ok_no_rejection _ _ He). }
  destruct (all_or_rejection (strip_outcomes w files)) as [[stripped Hst] | [e He]].
  2:{ left. apply (Hnone False); [ | tauto].
      intros _ _ stripped' _ Hst' _. rewrite Hst' in He.
      apply (map_Ok_no_rejection _ _ He). }
  right. split; [reflexivity | ]. split; [exact Hvalid | ].
  exists stripped. split; [exact Hst | ]. split.
  - rewrite (map_Ok_length _ _ Hst). apply mapi_length.
  - apply (stages_reached_upload ps stripped Hvalid Hps Hst).
Qed.

Lemma mapi_from_previews (start : nat) (fs : list File)
    (ps : list Preview.preview) :
  mapi_from start (make_preview w) fs = map Ok ps ->
  map Preview.name ps = map name fs /\ map Preview.size ps = map size fs.
Proof.
  revert start ps. induction fs as [ | f rest IH]; intros start ps.
  - destruct ps; [split; reflexivity | discriminate].
  - destruct ps as [ | p ps]; [discriminate | ].
    cbn [mapi_from map]. intros H. injection H as Hp Hrest.
    destruct (IH _ _ Hrest) as [Hn Hs]. unfold make_preview in Hp.
    destruct (read_file w start f); [ | discriminate].
    injection Hp as <-. cbn. rewrite Hn, Hs. split; reflexivity.
Qed.

(** The previews a run publishes are those of the whole batch, in the
    order of submission: one per file, each with the name and the size of
    its file, whatever the order in which the reads finished.  A batch
    with a file that cannot be read publishes none. *)
Theorem previews_match_files (isLoggedIn : bool) (ps : list Preview.preview) :
  In (SetPreviews ps) (performed (uploadImages w isLoggedIn blossomServers files)) ->
  preview_outcomes w files = map Ok ps
  /\ map Preview.name ps = map name files
  /\ map Preview.size ps = map size files
  /\ Forall (fun p => (Preview.size p <= 5242880)%Z) ps.
Proof.
  pose (P := fun e =>
               match e with
               | SetPreviews qs =>
                   preview_outcomes w files = map Ok qs
                   /\ map Preview.name qs = map name files
                   /\ map Preview.size qs = map size files
                   /\ Forall (fun p => (Preview.size p <= MAX_FILE_SIZE)%Z) qs
               | _ => True
               end).
  assert (Hall : Forall P (performed (uploadImages w isLoggedIn blossomServers files))).
  { apply run_effects; try exact I; [ | intros; exact I].
    apply (stages_calls w isLoggedIn blossomServers files P); cbn;
      try (intros; exact I).
    intros Hvalid qs Hqs. split; [exact Hqs | ].
    destruct (mapi_from_previews 0 files qs Hqs) as [Hn Hs].
    split; [exact Hn | ]. split; [exact Hs | ].
    apply Forall_forall. intros p Hp.
    assert (Hin : In (Preview.size p) (map size files))
      by (rewrite <- Hs; apply in_map; exact Hp).
    apply in_map_iff in Hin. destruct Hin as [f [<- Hf]].
    apply (validate_ok files f Hvalid Hf). }
  rewrite Forall_forall in Hall. intros Hin. exact (Hall _ Hin).
Qed.

End Barrier.

Section Endpoints.

Import Examples.

(** C9: the servers every upload call gets are [blossomServers] when that
    list is configured and not empty, and the one built-in server
    otherwise.  No call, before or after the run returns, gets anything
    else; and the calls are made: once every file of a valid batch of a
    logged-in user has been read and stripped, the collaborator is called
    once for each stripped file, in order, with exactly these servers. *)
Theorem upload_gets_configured_or_default_servers (w : world)
    (blossomServers : option (list string)) (files : list File) :
  let servers :=
    match blossomServers with
    | None | Some [] => ["https://cdn.nostrcheck.me"]
    | Some (first :: more) => first :: more
    end in
  (forall isLoggedIn f used,
     In (BlossomUploadImages f used)
        (performed (uploadImages w isLoggedIn blossomServers files)
         ++ deferred (uploadImages w isLoggedIn blossomServers files)) ->
     used = servers)
  /\ (forall previewsList strippedImageFiles,
        validate files = Ok tt ->
        preview_outcomes w files = map Ok previewsList ->
        strip_outcomes w files = map Ok strippedImageFiles ->
        List.length strippedImageFiles = List.length files
        /\ upload_calls (performed (uploadImages w true blossomServers files))
           = map (fun f => (f, servers)) strippedImageFiles).
Proof.
  cbv zeta.
  assert (Hservers : endpoints blossomServers
                     = match blossomServers with
                       | None | Some [] => ["https://cdn.nostrcheck.me"]
                       | Some (first :: more) => first :: more
                       end)
    by (destruct blossomServers as [[ | first more] | ]; reflexivity).
  rewrite <- Hservers. split.
  - intros isLoggedIn f used Hin.
    pose (P := fun e => match e with
                        | BlossomUploadImages _ s => s = endpoints blossomServers
                        | _ => True
                        end).
    assert (Hst : effects_satisfy P (stages w isLoggedIn blossomServers files))
      by (apply stages_effects; cbn; auto).
    destruct Hst as [Hp Hd].
    assert (Hall : Forall P
                     (performed (uploadImages w isLoggedIn blossomServers files)
                      ++ deferred (uploadImages w isLoggedIn blossomServers files))).
    { destruct (uploadImages_ending w isLoggedIn blossomServers files)
        as [e _ Heq | responses urls _ _ Heq]; rewrite Heq;
        cbn [performed deferred]; repeat (apply Forall_app; split);
        try assumption; repeat constructor.
      destruct (0 <? List.length urls)%nat; repeat constructor. }
    rewrite Forall_forall in Hall. exact (Hall _ Hin).
  - intros previewsList strippedImageFiles Hvalid Hpreviews Hstripped. split.
    + rewrite (map_Ok_length _ _ Hstripped). apply mapi_length.
    + rewrite upload_calls_of_run.
      apply (stages_reached_upload w blossomServers files previewsList
               strippedImageFiles Hvalid Hpreviews Hstripped).
Qed.

Lemma upload_gets_configured_or_default_servers_witness :
  upload_calls
    (performed (uploadImages second_finishes_first true None [photo_a; photo_b]))
  = [(stripped photo_a, ["https://cdn.nostrcheck.me"]);
     (stripped photo_b, ["https://cdn.nostrcheck.me"])]
  /\ upload_calls
       (performed (uploadImages first_upload_fails true (Some []) [photo_a; photo_b]))
     = [(stripped photo_a, ["https://cdn.nostrcheck.me"]);
        (stripped photo_b, ["https://cdn.nostrcheck.me"])]
  /\ upload_calls
       (performed
          (uploadImages second_finishes_first true
             (Some ["https://a.example"; "https://b.example"]) [photo_a; photo_b]))
     = [(stripped photo_a, ["https://a.example"; "https://b.example"]);
        (stripped photo_b, ["https://a.example"; "https://b.example"])].
Proof.
  pose (previewsList := [Preview.mk "data:image/jpeg;base64," "a.jpg" 2048;
                         Preview.mk "data:image/jpeg;base64," "b.jpg" 2048]).
  split; [ | split].
  - exact (proj2 (proj2 (upload_gets_configured_or_default_servers
                           second_finishes_first None [photo_a; photo_b])
                    previewsList [stripped photo_a; stripped photo_b]
                    eq_refl eq_refl eq_refl)).
  - exact (proj2 (proj2 (upload_gets_configured_or_default_servers
                           first_upload_fails (Some []) [photo_a; photo_b])
                    previewsList [stripped photo_a; stripped photo_b]
                    eq_refl eq_refl eq_refl)).
  - exact (proj2 (proj2 (upload_gets_configured_or_default_servers
                           second_finishes_first
                           (Some ["https://a.example"; "https://b.example"])
                           [photo_a; photo_b])
                    previewsList [stripped photo_a; stripped photo_b]
                    eq_refl eq_refl eq_refl)).
Defined.

End Endpoints.

Section BarrierWitnesses.

Import Examples.

Lemma previews_match_files_witness :
  map Preview.name
    [Preview.mk "data:image/jpeg;base64," "a.jpg" 2048;
     Preview.mk "data:image/jpeg;base64," "b.jpg" 2048]
  = map name [photo_a; photo_b].
Proof.
  refine (proj1 (proj2 (previews_match_files first_strip_fails None
                          [photo_a; photo_b] true _ _))).
  cbn. do 3 right. left. reflexivity.
Defined.

End BarrierWitnesses.

(** ** More on the resolver and the validator *)

Section ResolverAndValidator.

Import Resolver Examples.

(** Responses are resolved independently and in order: the URLs of two
    batches of responses put end to end are the URLs of the first
    followed by the URLs of the second. *)
Theorem resolve_urls_app (first second : list value) :
  exists urls urls',
    resolve_urls first = Ok urls
    /\ resolve_urls second = Ok urls'
    /\ resolve_urls (first ++ second) = Ok (urls ++ urls').
Proof.
  destruct (resolve_urls_total second) as [urls' Hsecond].
  induction first as [ | response rest IH].
  - exists [], urls'. split; [reflexivity | split; exact Hsecond].
  - destruct IH as [urls [urls'' [Hrest [Hsecond' Happ]]]].
    assert (urls'' = urls') by congruence. subst urls''.
    destruct (resolve_urls_total [response]) as [here Hhere].
    exists (here ++ urls), urls'.
    split; [ | split; [exact Hsecond | ]].
    + rewrite resolve_urls_cons, Hhere, Hrest. reflexivity.
    + cbn [app]. rewrite resolve_urls_cons, Hhere, Happ. cbn [JS.bind].
      rewrite app_assoc. reflexivity.
Qed.

Lemma find_url_headed_skips (before after : list value) (tag : value) :
  Forall (fun t => url_headed t = false) before ->
  url_headed tag = true ->
  find url_headed (before ++ tag :: after) = Some tag.
Proof.
  intros Hbefore Htag. induction Hbefore as [ | t rest Ht _ IH]; cbn [app find].
  - rewrite Htag. reflexivity.
  - rewrite Ht. exact IH.
Qed.

(** The resolver does not look at what the url tag holds: whatever stands
    second in the first tag headed ["url"], a string or not, is returned
    as the URL unless it is [null]; the further elements of that tag and
    the tags after it are ignored. *)
Theorem resolver_returns_any_value (before more after : list value) (v : value) :
  Forall (fun t => url_headed t = false) before ->
  v <> VNull ->
  resolve_urls [VArr (before ++ VArr (VStr "url" :: v :: more) :: after)] = Ok [v].
Proof.
  intros Hbefore Hv. rewrite resolve_urls_array.
  rewrite (find_url_headed_skips before after (VArr (VStr "url" :: v :: more))
             Hbefore eq_refl).
  cbn [filter]. destruct v; try reflexivity. congruence.
Qed.

Lemma resolver_returns_any_value_witness :
  resolve_urls
    [VArr ([VArr [VStr "size"; VStr "100"]; VNull]
           ++ VArr [VStr "url"; VNum 42; VStr "ignored"]
           :: [VArr [VStr "url"; VStr "https://x/late.png"]])]
  = Ok [VNum 42].
Proof.
  apply (resolver_returns_any_value [VArr [VStr "size"; VStr "100"]; VNull]
           [VStr "ignored"] [VArr [VStr "url"; VStr "https://x/late.png"]] (VNum 42)).
  - repeat constructor.
  - discriminate.
Defined.

Lemma validate_type_message (files : list File) :
  validate files = Throw (ErrorObj type_message)
  <-> exists f, In f files /\ ~ In (type f) ALLOWED_TYPES.
Proof.
  unfold validate.
  set (bad_type := fun imgFile : File =>
         negb (String.prefix "image/" (type imgFile))
         || negb (includes ALLOWED_TYPES (type imgFile))).
  destruct (existsb bad_type files) eqn:Htype.
  - apply existsb_exists in Htype. destruct Htype as [f [Hin Hbad]].
    split; [intros _ | intros _; reflexivity].
    exists f. split; [exact Hin | apply type_guard_iff; exact Hbad].
  - split.
    + destruct (existsb (fun imgFile => (MAX_FILE_SIZE <? size imgFile)%Z) files);
        intros H; [ | discriminate H].
      injection H as H. unfold size_message, type_message in H. discriminate H.
    + intros [f [Hin Hout]]. exfalso.
      assert (Hex : existsb bad_type files = true).
      { apply existsb_exists. exists f. split; [exact Hin | ].
        apply type_guard_iff. exact Hout. }
      congruence.
Qed.

(** The three verdicts of the validation.  A batch passes exactly when
    every file has an accepted type and at most 5,242,880 bytes, a file of
    exactly that size included; a wrong type anywhere in the batch gives
    the message about types, even when some file is also too big; the
    message about size is given only when all types are accepted. *)
Theorem validate_verdicts (files : list File) :
  (validate files = Ok tt
   <-> forall f, In f files ->
         In (type f) ["image/jpeg"; "image/png"; "image/webp"]
         /\ (size f <= 5242880)%Z)
  /\ (validate files = Throw (ErrorObj type_message)
      <-> exists f, In f files
                    /\ ~ In (type f) ["image/jpeg"; "image/png"; "image/webp"])
  /\ (validate files = Throw (ErrorObj size_message)
      <-> (forall f, In f files ->
             In (type f) ["image/jpeg"; "image/png"; "image/webp"])
          /\ exists f, In f files /\ (5242880 < size f)%Z).
Proof.
  split; [ | split].
  - split.
    + intros Hvalid f Hin. apply (validate_ok files f Hvalid Hin).
    + intros Hall. destruct (validate_cases files) as [H | H]; [exact H | ].
      exfalso.
      assert (Hoff : exists f, In f files /\ offending f).
      { apply validate_throws_iff. destruct H as [H | H]; eexists;
          (split; [exact H | tauto]). }
      destruct Hoff as [f [Hin [Hout | Hbig]]]; destruct (Hall f Hin) as [Ha Hs];
        [contradiction | unfold MAX_FILE_SIZE in Hbig; lia].
  - apply validate_type_message.
  - split.
    + intros Hsize.
      assert (Hall : forall f, In f files -> In (type f) ALLOWED_TYPES).
      { intros f Hin.
        destruct (in_dec string_dec (type f) ALLOWED_TYPES) as [Ha | Hout];
          [exact Ha | ].
        exfalso.
        assert (Ht : validate files = Throw (ErrorObj type_message))
          by (apply validate_type_message; exists f; split; assumption).
        rewrite Ht in Hsize. discriminate. }
      split; [exact Hall | ].
      assert (Hoff : exists f, In f files /\ offending f).
      { apply validate_throws_iff. eexists. split; [exact Hsize | tauto]. }
      destruct Hoff as [f [Hin [Hout | Hbig]]].
      * exfalso. apply Hout. apply Hall. exact Hin.
      * exists f. split; [exact Hin | exact Hbig].
    + intros [Hall [f [Hin Hbig]]].
      destruct (validate_cases files) as [H | [H | H]]; [ | | exact H]; exfalso.
      * destruct (validate_ok files f H Hin) as [_ Hs].
        unfold MAX_FILE_SIZE in Hs. lia.
      * apply validate_type_message in H. destruct H as [g [Hg Hout]].
        apply Hout. apply Hall. exact Hg.
Qed.

End ResolverAndValidator.

(** ** Size labels *)

Section SizeLabels.

Import Display.

Lemma tenths_nearest (num den : Z) :
  (0 < den)%Z -> (0 <= num)%Z ->
  (2 * Z.abs (10 * num - den * tenths num den) <= den)%Z
  /\ (0 <= tenths num den)%Z.
Proof.
  intros Hden Hnum. unfold tenths.
  pose proof (Z.div_mod (2 * (10 * num) + den) (2 * den)) as Hdm.
  pose proof (Z.mod_pos_bound (2 * (10 * num) + den) (2 * den)) as Hr.
  set (q := ((2 * (10 * num) + den) / (2 * den))%Z) in *.
  set (r := ((2 * (10 * num) + den) mod (2 * den))%Z) in *.
  split; [ | apply Z.div_pos; lia].
  assert (Hq : (2 * (10 * num) + den = 2 * (den * q) + r)%Z) by lia.
  lia.
Qed.

Lemma tenths_monotone (num num' den : Z) :
  (0 < den)%Z -> (num <= num')%Z -> (tenths num den <= tenths num' den)%Z.
Proof. intros Hden Hle. unfold tenths. apply Z.div_le_mono; lia. Qed.

(** What [formatFileSize] prints for the size of a file.  Below 1024 it is
    the number of bytes; from 1024 up to 1048575 it is a number of
    kilobytes, from 1048576 on a number of megabytes, each with one
    decimal, and that number is within a twentieth of the true quotient.
    A file that passed validation is never shown as more than 5.0 MB. *)
Theorem formatFileSize_rounds_to_nearest_tenth (bytes : Z) :
  file_size bytes ->
  ((bytes < 1024)%Z /\ formatFileSize bytes = (decimal bytes ++ " B")%string)
  \/ ((1024 <= bytes < 1048576)%Z
      /\ exists n,
           formatFileSize bytes = (fixed1 n ++ " KB")%string
           /\ (10 <= n <= 10240)%Z
           /\ (2 * Z.abs (10 * bytes - 1024 * n) <= 1024)%Z)
  \/ ((1048576 <= bytes)%Z
      /\ exists n,
           formatFileSize bytes = (fixed1 n ++ " MB")%string
           /\ (10 <= n)%Z
           /\ (2 * Z.abs (10 * bytes - 1048576 * n) <= 1048576)%Z
           /\ ((bytes <= MAX_FILE_SIZE)%Z -> (n <= 50)%Z)).
Proof.
  intros [Hlo _]. unfold formatFileSize.
  destruct (Z.ltb_spec bytes 1024) as [Hb | Hb]; [left; split; [exact Hb | reflexivity] | ].
  destruct (Z.ltb_spec bytes (1024 * 1024)) as [Hk | Hk].
  - right. left. split; [lia | ]. exists (tenths bytes 1024).
    split; [reflexivity | ].
    destruct (tenths_nearest bytes 1024 ltac:(lia) ltac:(lia)) as [Hnear _].
    pose proof (tenths_monotone 1024 bytes 1024 ltac:(lia) ltac:(lia)) as Hmin.
    pose proof (tenths_monotone bytes 1048575 1024 ltac:(lia) ltac:(lia)) as Hmax.
    change (tenths 1024 1024) with 10%Z in Hmin.
    change (tenths 1048575 1024) with 10240%Z in Hmax.
    split; [split; assumption | exact Hnear].
  - right. right. split; [lia | ]. exists (tenths bytes (1024 * 1024)).
    split; [reflexivity | ].
    destruct (tenths_nearest bytes (1024 * 1024) ltac:(lia) ltac:(lia)) as [Hnear _].
    pose proof (tenths_monotone (1024 * 1024) bytes (1024 * 1024)
                  ltac:(lia) ltac:(lia)) as Hmin.
    change (tenths (1024 * 1024) (1024 * 1024)) with 10%Z in Hmin.
    split; [exact Hmin | ]. split; [exact Hnear | ].
    intros Hle.
    pose proof (tenths_monotone bytes MAX_FILE_SIZE (1024 * 1024)
                  ltac:(lia) Hle) as Hmax.
    change (tenths MAX_FILE_SIZE (1024 * 1024)) with 50%Z in Hmax. exact Hmax.
Qed.

Lemma formatFileSize_rounds_to_nearest_tenth_witness :
  ((1280 < 1024)%Z /\ formatFileSize 1280 = (decimal 1280 ++ " B")%string)
  \/ ((1024 <= 1280 < 1048576)%Z
      /\ exists n,
           formatFileSize 1280 = (fixed1 n ++ " KB")%string
           /\ (10 <= n <= 10240)%Z
           /\ (2 * Z.abs (10 * 1280 - 1024 * n) <= 1024)%Z)
  \/ ((1048576 <= 1280)%Z
      /\ exists n,
           formatFileSize 1280 = (fixed1 n ++ " MB")%string
           /\ (10 <= n)%Z
           /\ (2 * Z.abs (10 * 1280 - 1048576 * n) <= 1048576)%Z
           /\ ((1280 <= MAX_FILE_SIZE)%Z -> (n <= 50)%Z)).
Proof.
  apply (formatFileSize_rounds_to_nearest_tenth 1280).
  unfold file_size. lia.
Defined.

(** A tie goes up: 1280 bytes are 1.25 KB and are shown as 1.3 KB; the
    largest accepted file is shown as 5.0 MB. *)
Example formatFileSize_examples :
  formatFileSize 1280 = "1.3 KB"
  /\ formatFileSize 5242880 = "5.0 MB"
  /\ formatFileSize 1023 = "1023 B"
  /\ formatFileSize 0 = "0 B".
Proof. repeat split. Qed.

(** The kilobyte branch can print a full 1024: every size from 1048525
    to 1048575 bytes, which is less than a megabyte, is shown as
    ["1024.0 KB"] and not as ["1.0 MB"]. *)
Theorem formatFileSize_shows_1024_KB (bytes : Z) :
  (1048525 <= bytes < 1048576)%Z -> formatFileSize bytes = "1024.0 KB".
Proof.
  intros [Hlo Hhi]. unfold formatFileSize.
  destruct (Z.ltb_spec bytes 1024) as [Hb | _]; [lia | ].
  destruct (Z.ltb_spec bytes (1024 * 1024)) as [_ | Hk]; [ | lia].
  assert (Hn : tenths bytes 1024 = 10240%Z).
  { pose proof (tenths_monotone 1048525 bytes 1024 ltac:(lia) Hlo) as Hmin.
    pose proof (tenths_monotone bytes 1048575 1024 ltac:(lia) ltac:(lia)) as Hmax.
    change (tenths 1048525 1024) with 10240%Z in Hmin.
    change (tenths 1048575 1024) with 10240%Z in Hmax.
    apply Z.le_antisymm; assumption. }
  rewrite Hn. reflexivity.
Qed.

Lemma formatFileSize_shows_1024_KB_witness :
  formatFileSize 1048575 = "1024.0 KB".
Proof. apply formatFileSize_shows_1024_KB. lia. Defined.

End SizeLabels.

(** ** Object URLs *)

Section ObjectUrls.

Import ObjectUrl.

(** Whichever way [stripImageMetadata] settles, it has created one object
    URL and revoked it once, as its last browser call; it asks the canvas
    for a blob only after the image loaded into a 2d context, and then in
    the file's own declared type. *)
Theorem object_url_always_revoked (c : canvas) (imageFile : File) :
  let calls := fst (stripImageMetadata_calls c imageFile) in
  snd (stripImageMetadata_calls c imageFile) = stripImageMetadata c imageFile
  /\ hd RevokeObjectURL calls = CreateObjectURL imageFile
  /\ last calls DrawImage = RevokeObjectURL
  /\ creations calls = 1
  /\ revocations calls = 1
  /\ (forall mime, In (ToBlob mime) calls ->
        mime = type imageFile /\ loads c = true /\ has_context c = true).
Proof.
  unfold stripImageMetadata_calls, stripImageMetadata.
  destruct (loads c), (has_context c), (blob c); cbv zeta; cbn [fst snd];
    (do 5 (split; [reflexivity | ]));
    intros mime H; cbn [In] in H;
    repeat (destruct H as [H | H]; try discriminate H);
    try contradiction;
    injection H as <-; repeat split.
Qed.

End ObjectUrls.

(** ** Removing previews *)

Section PreviewRemoval.

Import Removal.

Lemma filteri_keeps_all {A} (start : nat) (p : A -> nat -> bool) (xs : list A) :
  (forall x idx, start <= idx -> p x idx = true) -> filteri_from start p xs = xs.
Proof.
  revert start. induction xs as [ | x rest IH]; intros start Hp; [reflexivity | ].
  cbn [filteri_from]. rewrite (Hp x start (le_n start)). f_equal.
  apply IH. intros y idx Hidx. apply Hp. lia.
Qed.

(** The update of [removePreview] removes the element at [index], if
    there is one. *)
Lemma without_index_from {A} (start index : nat) (prev : list A) :
  filteri_from start (fun _ idx => negb (idx =? start + index)%nat) prev
  = remove_at index prev.
Proof.
  revert start index. induction prev as [ | x rest IH]; intros start index.
  - destruct index; reflexivity.
  - cbn [filteri_from]. destruct index as [ | k].
    + rewrite Nat.add_0_r, Nat.eqb_refl. cbn [negb remove_at].
      apply filteri_keeps_all. intros y idx Hidx.
      apply negb_true_iff, Nat.eqb_neq. lia.
    + assert (Hne : (start =? start + S k)%nat = false)
        by (apply Nat.eqb_neq; lia).
      rewrite Hne. cbn [negb remove_at]. f_equal.
      replace (start + S k) with (S start + k) by lia. apply IH.
Qed.

Lemma remove_at_nth_error {A} (index j : nat) (xs : list A) :
  nth_error (remove_at index xs) j
  = nth_error xs (if (j <? index)%nat then j else S j).
Proof.
  revert index j. induction xs as [ | x rest IH]; intros index j.
  - destruct index; cbn [remove_at]; destruct (j <? _)%nat, j; reflexivity.
  - destruct index as [ | k]; cbn [remove_at].
    + reflexivity.
    + destruct j as [ | j]; [reflexivity | ].
      cbn [nth_error]. rewrite IH.
      change (S j <? S k)%nat with (j <? k)%nat.
      destruct (j <? k)%nat; reflexivity.
Qed.

Lemma remove_at_length {A} (index : nat) (xs : list A) :
  (index < List.length xs -> S (List.length (remove_at index xs)) = List.length xs)
  /\ (List.length xs <= index -> remove_at index xs = xs).
Proof.
  revert index. induction xs as [ | x rest IH]; intros index.
  - destruct index; split; try reflexivity; cbn; lia.
  - destruct index as [ | k]; cbn [remove_at List.length].
    + split; [reflexivity | lia].
    + destruct (IH k) as [Hin Hout]. split.
      * intros Hlt. rewrite Hin by lia. reflexivity.
      * intros Hle. rewrite Hout by lia. reflexivity.
Qed.

(** [removePreview index] takes the preview at [index] out of the list
    and keeps the others in their order; an index past the end leaves the
    list as it is.  In both cases the parent's callback is called once,
    with [""], which does not say which preview went away. *)
Theorem removePreview_drops_one_preview (w : world) (s : ui) (index : nat) :
  let s' := run s (performed (removePreview w index)) in
  previews s' = without_index index (previews s)
  /\ (forall j, nth_error (previews s') j
                = nth_error (previews s) (if (j <? index)%nat then j else S j))
  /\ (index < List.length (previews s) ->
      S (List.length (previews s')) = List.length (previews s))
  /\ (List.length (previews s) <= index -> previews s' = previews s)
  /\ callback_arguments (performed (removePreview w index)) = [VStr ""]
  /\ progress s' = progress s
  /\ failureText s' = failureText s.
Proof.
  cbv zeta. unfold removePreview, bindM, call_callback.
  cbn [tell outcome performed app run fold_left step previews progress failureText].
  split; [symmetry; apply (without_index_from 0 index) | ].
  split; [intros j; apply remove_at_nth_error | ].
  split; [apply remove_at_length | ].
  split; [apply remove_at_length | ].
  repeat split.
Qed.

End PreviewRemoval.
